(** * Golden Copy Manager: the history store, the clipboard watcher, the
      history loader, the search-box validator and the Windows hotkey
      listener of [Golden_Copy_Manager.py], embedded as Rocq functions.

    Conventions of the embedding.
    - A Python [str] is a [string]; its characters stand for code points
      below 256, and [length] is Python's [len].
    - [time.time()] is an argument [now]; timestamps are exact rationals.
    - A history entry is the four-key dict the program builds at each of its
      three construction sites, as a record.
    - [self.history] is threaded through the functions as a [list entry];
      the Tk widgets ([_refresh_list]) and the file written by
      [_auto_save_history] are outside the model. *)

From Stdlib Require Import QArith Ascii.
From stdpp Require Import base list strings pretty gmap sorting.

Set Warnings "-register-all".

(** ** Python built-ins used by the program *)

(** [str.isspace] on the code points below 256. *)
Definition isspace (c : ascii) : bool :=
  let n := nat_of_ascii c in
  (Nat.leb 9 n && Nat.leb n 13) || (Nat.leb 28 n && Nat.leb n 32)
  || Nat.eqb n 133 || Nat.eqb n 160.

Fixpoint lstrip (s : string) : string :=
  match s with
  | EmptyString => EmptyString
  | String c s' => if isspace c then lstrip s' else s
  end.

Fixpoint rstrip (s : string) : string :=
  match s with
  | EmptyString => EmptyString
  | String c s' =>
      match rstrip s' with
      | EmptyString => if isspace c then EmptyString else String c EmptyString
      | r => String c r
      end
  end.

(** [s.strip()] *)
Definition strip (s : string) : string := rstrip (lstrip s).

(** [list.insert(i, x)] for [0 <= i]: past the end it appends. *)
Definition py_insert {A} (i : nat) (x : A) (l : list A) : list A :=
  take i l ++ x :: drop i l.

(** What [json.load] returns.  A dict is its items in insertion order
    (keys distinct); numbers are finite and within the range of a float. *)
Inductive json :=
| JNull
| JBool (b : bool)
| JNum (n : Q)
| JStr (s : string)
| JList (l : list json)
| JDict (items : list (string * json)).

(** [d.get(k)]: [None] when the key is absent. *)
Fixpoint dict_get (k : string) (d : list (string * json)) : option json :=
  match d with
  | [] => None
  | (k', v) :: d' => if bool_decide (k' = k) then Some v else dict_get k d'
  end.

(** [bool(v)] *)
Definition py_bool (v : json) : bool :=
  match v with
  | JNull => false
  | JBool b => b
  | JNum n => negb (Qeq_bool n 0)
  | JStr s => bool_decide (s ≠ "")
  | JList l => bool_decide (l ≠ [])
  | JDict d => bool_decide (d ≠ [])
  end.

(** ** History store *)

Record entry := Entry { text : string; fold : string; ts : Q; pinned : bool }.

Definition MAX_ITEMS : nat := 50.

Definition _trim_history (history : list entry) : list entry :=
  let pinned_ := filter (λ h, pinned h) history in
  let unpinned := filter (λ h, ¬ pinned h) history in
  let unpinned :=
    if decide (MAX_ITEMS < length unpinned) then take MAX_ITEMS unpinned
    else unpinned in
  pinned_ ++ unpinned.

(** The built-ins whose tables are not part of the program: Unicode case
    folding, the [repr] of numbers and containers, and the float parser. *)
Class PyBuiltins := {
  casefold : string → string;
  repr_other : json → string;
  float_of_str : string → option Q
}.

Section Program.
Context `{PyBuiltins}.

(** [str(v)] *)
Definition py_str (v : json) : string :=
  match v with
  | JStr s => s
  | JNull => "None"
  | JBool true => "True"
  | JBool false => "False"
  | _ => repr_other v
  end.

(** [float(v)]; [None] is a raised [TypeError] or [ValueError]. *)
Definition py_float (v : json) : option Q :=
  match v with
  | JNum n => Some n
  | JBool b => Some (if b then 1 else 0)%Q
  | JStr s => float_of_str s
  | _ => None
  end.

Definition _add_to_history (now : Q) (item : string) (history : list entry)
  : list entry :=
  let '(pinned_, history) :=
    match list_find (λ h, text h = item) history with
    | Some (i, h) => (pinned h, delete i history)
    | None => (false, history)
    end in
  let entry := Entry item (casefold item) now pinned_ in
  let history :=
    if pinned_ then py_insert 0 entry history
    else
      let pinned_count := length (filter (λ h, pinned h) history) in
      py_insert pinned_count entry history in
  _trim_history history.

(** [item] is what [_selected_history_item()] returns. *)
Definition toggle_pin_selected (item : option entry) (history : list entry)
  : list entry :=
  match item with
  | None => history
  | Some item =>
      let txt := text item in
      let pinned_ := negb (pinned item) in
      let ts_ := ts item in
      let history := filter (λ h, text h ≠ txt) history in
      let entry := Entry txt (casefold txt) ts_ pinned_ in
      let history :=
        if pinned_ then py_insert 0 entry history
        else
          let pinned_count := length (filter (λ h, pinned h) history) in
          py_insert pinned_count entry history in
      _trim_history history
  end.

(** A run of captures, each with the clock reading at its call. *)
Definition captures (cs : list (Q * string)) (history : list entry)
  : list entry :=
  foldl (λ h c, _add_to_history c.1 c.2 h) history cs.

(** The first entry with a text; it is the item the list box holds
    selected once [_refresh_list] has restored the selection by text. *)
Definition first_with_text (txt : string) (history : list entry)
  : option entry :=
  snd <$> list_find (λ h, text h = txt) history.

(** The two invariants of a history: one entry per text, pinned entries in
    a prefix. *)
Definition distinct_texts (history : list entry) : Prop :=
  NoDup (text <$> history).

Definition pinned_first (history : list entry) : Prop :=
  history = filter (λ h, pinned h) history ++ filter (λ h, ¬ pinned h) history.

(** ** Clipboard watcher *)

(** What [self.clipboard_get()] does: it returns a [str], returns
    something else, or raises [tk.TclError]. *)
Inductive clipboard :=
| ClipStr (data : string)
| ClipOther
| ClipTclError.

Definition _get_clipboard_text (clip : clipboard) : option string :=
  match clip with
  | ClipStr data => Some data
  | ClipOther => None
  | ClipTclError => None
  end.

(** The fields of [ClipboardManager] the watcher and the search box use. *)
Record manager := Manager {
  history : list entry;
  last_clip : option string;
  monitoring_paused_var : bool;
  search_var : string;
  search_warn_var : string;
  bells : nat
}.

Definition set_history (l : list entry) (self : manager) : manager :=
  Manager l (last_clip self) (monitoring_paused_var self) (search_var self)
    (search_warn_var self) (bells self).

Definition set_last_clip (c : option string) (self : manager) : manager :=
  Manager (history self) c (monitoring_paused_var self) (search_var self)
    (search_warn_var self) (bells self).

Definition set_monitoring_paused (b : bool) (self : manager) : manager :=
  Manager (history self) (last_clip self) b (search_var self)
    (search_warn_var self) (bells self).

Definition set_search_var (s : string) (self : manager) : manager :=
  Manager (history self) (last_clip self) (monitoring_paused_var self) s
    (search_warn_var self) (bells self).

Definition set_search_warn_var (s : string) (self : manager) : manager :=
  Manager (history self) (last_clip self) (monitoring_paused_var self)
    (search_var self) s (bells self).

Definition bell (self : manager) : manager :=
  Manager (history self) (last_clip self) (monitoring_paused_var self)
    (search_var self) (search_warn_var self) (S (bells self)).

(** One tick of [_poll_clipboard]; [clip] is what the clipboard holds. *)
Definition _poll_clipboard (now : Q) (clip : clipboard) (self : manager)
  : manager :=
  match _get_clipboard_text clip with
  | Some text_ =>
      let normalized := strip text_ in
      if bool_decide (normalized ≠ "") then
        if monitoring_paused_var self then
          set_last_clip (Some normalized) self
        else if bool_decide (Some normalized ≠ last_clip self) then
          let self := set_last_clip (Some normalized) self in
          set_history (_add_to_history now normalized (history self)) self
        else self
      else self
  | None => self
  end.

Definition toggle_monitoring (self : manager) : manager :=
  set_monitoring_paused (negb (monitoring_paused_var self)) self.

(** ** Search box *)

Definition MAX_SEARCH_CHARS : nat := 200.

Definition _validate_search (proposed : string) (self : manager)
  : bool * manager :=
  if decide (String.length proposed ≤ MAX_SEARCH_CHARS) then
    (true, set_search_warn_var "" self)
  else
    let self := bell self in
    (false,
     set_search_warn_var
       ("Search limited to " +:+ pretty MAX_SEARCH_CHARS +:+ " characters")
       self).

(** The entry widget is built with [validate="key"] and
    [validatecommand=(_validate_search, "%P")]: Tk calls the command with the
    text the edit would produce and applies the edit only when the command
    returns true. *)
Definition search_entry_edit (proposed : string) (self : manager) : manager :=
  let '(ok, self) := _validate_search proposed self in
  if ok then set_search_var proposed self else self.

(** ** Loading the persisted history *)

(** The loop over a list whose first element is a dict.  [None]: [float(ts)]
    raised, which only the outer handler of [_load_history] catches. *)
Fixpoint load_dicts (now : Q) (data : list json) : option (list entry) :=
  match data with
  | [] => Some []
  | JDict d :: data' =>
      let txt := strip (py_str (default (JStr "") (dict_get "text" d))) in
      if bool_decide (txt = "") then load_dicts now data'
      else
        let pinned_ := py_bool (default (JBool false) (dict_get "pinned" d)) in
        ts_ ← match dict_get "ts" d with
              | Some v => py_float v
              | None => Some now
              end;
        items ← load_dicts now data';
        Some (Entry txt (casefold txt) ts_ pinned_ :: items)
  | _ :: data' => load_dicts now data'
  end.

(** The loop over a legacy list; [i] is the index [enumerate] is at. *)
Fixpoint load_legacy (now : Q) (i : nat) (data : list json) : list entry :=
  match data with
  | [] => []
  | JStr t :: data' =>
      let txt := strip t in
      if bool_decide (txt = "") then load_legacy now (S i) data'
      else
        Entry txt (casefold txt) (now - inject_Z (Z.of_nat i))%Q false
          :: load_legacy now (S i) data'
  | _ :: data' => load_legacy now (S i) data'
  end.

Definition load_items (now : Q) (data : json) : option (list entry) :=
  match data with
  | JList (JDict d :: data') => load_dicts now (JDict d :: data')
  | JList data => Some (load_legacy now 0 data)
  | _ => Some []
  end.

(** The de-duplication loop, [seen] being the set it carries. *)
Fixpoint dedupe (seen : gset string) (items : list entry) : list entry :=
  match items with
  | [] => []
  | h :: items' =>
      let txt := text h in
      if bool_decide (txt = "" ∨ txt ∈ seen) then dedupe seen items'
      else h :: dedupe ({[txt]} ∪ seen) items'
  end.

(** [file] is [None] when [HISTORY_PATH] does not exist or [json.load]
    raises; both leave [self.history] as it is. *)
Definition _load_history (now : Q) (file : option json) (history : list entry)
  : list entry :=
  match file with
  | None => history
  | Some data =>
      match load_items now data with
      | None => history
      | Some items => _trim_history (dedupe ∅ items)
      end
  end.

(** A text as the loader stores it: stripped and not empty. *)
Definition clean_text (e : entry) : Prop :=
  strip (text e) = text e ∧ text e ≠ "".


(** The elements the two loops pass over: in a list of dicts, an element
    that is no dict or whose text, read through [str], is empty once
    stripped; in a legacy list, an element that is no string or is empty once
    stripped. *)
Definition skipped_record (dicts : bool) (r : json) : Prop :=
  if dicts then
    match r with
    | JDict d => strip (py_str (default (JStr "") (dict_get "text" d))) = ""
    | _ => True
    end
  else
    match r with
    | JStr t => strip t = ""
    | _ => True
    end.

#[global] Instance skipped_record_dec dicts r :
  Decision (skipped_record dicts r).
Proof. destruct dicts, r; simpl; apply _. Defined.



End Program.

(** ** Windows hotkey listener *)

Inductive event :=
| SHOW
| HOTKEY
| INFO (msg : string)
| ERROR (msg : string).

Definition MOD_ALT : Z := 0x0001.
Definition MOD_CONTROL : Z := 0x0002.
Definition MOD_SHIFT : Z := 0x0004.
Definition MOD_WIN : Z := 0x0008.
Definition MOD_NOREPEAT : Z := 0x4000.

(** The fields of [WindowsHotkeyListener], with the queue it was given. *)
Record listener := Listener {
  _hotkey_id : Z;
  _mods : Z;
  _vk : Z;
  _display : string;
  _pending_mods : option Z;
  _pending_vk : option Z;
  _pending_display : option string;
  q : list event
}.

(** [user32] as the listener sees it: the combination bound to the pair
    (window, [_hotkey_id]), and whether the [n]-th call of [RegisterHotKey]
    is granted for a combination, which other processes decide. *)
Record user32 := User32 {
  registered : option (Z * Z);
  calls : nat;
  grants : nat → Z → Z → bool
}.

Definition world : Type := listener * user32.

(** Computations of the listener thread. *)
Definition Win (A : Type) : Type := world → A * world.

#[global] Instance Win_ret : MRet Win := λ A x w, (x, w).
#[global] Instance Win_bind : MBind Win :=
  λ A B f m w, let '(x, w') := m w in f x w'.

Definition get_self : Win listener := λ w, (w.1, w).
Definition modify_self (f : listener → listener) : Win () :=
  λ w, ((), (f w.1, w.2)).

Definition q_put (e : event) : Win () :=
  modify_self (λ l,
    Listener (_hotkey_id l) (_mods l) (_vk l) (_display l) (_pending_mods l)
      (_pending_vk l) (_pending_display l) (q l ++ [e])).

Definition set_binding (mods vk : Z) (display : string) : Win () :=
  modify_self (λ l,
    Listener (_hotkey_id l) mods vk display (_pending_mods l)
      (_pending_vk l) (_pending_display l) (q l)).

Definition register_hotkey (mods vk : Z) : Win bool :=
  λ w,
    let os := w.2 in
    let ok := grants os (calls os) mods vk in
    (ok,
     (w.1,
      User32 (if ok then Some (mods, vk) else registered os)
        (S (calls os)) (grants os))).

Definition unregister_hotkey : Win () :=
  λ w, ((), (w.1, User32 None (calls w.2) (grants w.2))).

(** [set_hotkey] on Windows: it stores the request; the posted message is
    the [WM_APP_SET_HOTKEY] that [wndproc] receives later. *)
Definition set_hotkey (mods vk : Z) (display : string) : Win () :=
  modify_self (λ l,
    Listener (_hotkey_id l) (_mods l) (_vk l) (_display l) (Some mods)
      (Some vk) (Some display) (q l)).

(** The messages [wndproc] tells apart; [WM_CLOSE] destroys the window and
    so arrives as [WM_DESTROY]. *)
Inductive message :=
| WM_HOTKEY (wparam : Z)
| WM_APP_SET_HOTKEY
| WM_DESTROY
| WM_OTHER.

Definition wndproc (msg : message) : Win Z :=
  match msg with
  | WM_HOTKEY wparam =>
      self ← get_self;
      if bool_decide (wparam = _hotkey_id self) then q_put HOTKEY;; mret 0%Z
      else mret 0%Z
  | WM_APP_SET_HOTKEY =>
      self ← get_self;
      match _pending_mods self, _pending_vk self, _pending_display self with
      | Some new_mods, Some new_vk, Some new_disp =>
          if bool_decide (new_disp = "") then mret 0%Z
          else
            unregister_hotkey;;
            ok ← register_hotkey new_mods new_vk;
            if ok : bool then
              set_binding new_mods new_vk new_disp;;
              q_put (INFO ("Hotkey set to: " +:+ new_disp));;
              mret 0%Z
            else
              (* rollback *)
              ok' ← register_hotkey (_mods self) (_vk self);
              if ok' : bool then
                q_put (ERROR ("Hotkey '" +:+ new_disp
                              +:+ "' unavailable (already used). Kept: "
                              +:+ _display self));;
                mret 0%Z
              else
                q_put (ERROR "Hotkey registration failed and rollback failed.");;
                mret 0%Z
      | _, _, _ => mret 0%Z
      end
  | WM_DESTROY => unregister_hotkey;; mret 0%Z
  | WM_OTHER => mret 0%Z
  end.

(** The start of [_run]: the first registration, before the message loop. *)
Definition _run_register : Win () :=
  self ← get_self;
  ok ← register_hotkey (_mods self) (_vk self);
  if ok : bool then q_put (INFO ("Hotkey ready: " +:+ _display self))
  else q_put (ERROR ("Failed to register hotkey: " +:+ _display self
                     +:+ " (already used?)")).

(** [WindowsHotkeyListener.__init__] *)
Definition listener_init : listener :=
  Listener 1 (Z.lor (Z.lor MOD_CONTROL MOD_ALT) MOD_NOREPEAT) 86 "Ctrl+Alt+V"
    None None None [].

(** Replacement is atomic: once a request for a new combination is handled
    on a world where a combination is registered, the new combination or
    that one is registered. *)
Definition replace_is_atomic (w : world) : Prop :=
  ∀ new_mods new_vk new_disp old,
    _pending_mods w.1 = Some new_mods →
    _pending_vk w.1 = Some new_vk →
    _pending_display w.1 = Some new_disp → new_disp ≠ "" →
    registered w.2 = Some old →
    let w' := (wndproc WM_APP_SET_HOTKEY w).2 in
    registered w'.2 = Some (new_mods, new_vk) ∨ registered w'.2 = Some old.

(** A run: the listener starts and registers Ctrl+Alt+V, which is granted;
    the controller asks for Ctrl+Alt+B; from then on every registration is
    refused. *)
Definition only_first_granted : nat → Z → Z → bool := λ n _ _, Nat.eqb n 0.

Definition started_world : world :=
  (_run_register (listener_init, User32 None 0 only_first_granted)).2.

Definition requested_world : world :=
  (set_hotkey (Z.lor (Z.lor MOD_CONTROL MOD_ALT) MOD_NOREPEAT) 66 "Ctrl+Alt+B"
     started_world).2.

(** ** Data of the examples *)

Definition two_entries : list entry :=
  [Entry "beta" "beta" 1 true; Entry "alpha" "alpha" 2 false].

(** One pinned entry followed by [MAX_ITEMS] unpinned ones, texts "0" to
    "49". *)
Definition full_history : list entry :=
  Entry "pin" "pin" 0 true
    :: ((λ i : nat, Entry (pretty i) (pretty i) (inject_Z (Z.of_nat i)) false)
          <$> seq 0 MAX_ITEMS).

Definition idle_manager : manager := Manager [] None true "" "" 0.

(** A text of 201 characters. *)
Definition long_query : string :=
  String.concat "" (replicate 201 "q").

(** ** A table of built-ins for ASCII texts, used by the examples *)

Definition ascii_lower (c : ascii) : ascii :=
  let n := nat_of_ascii c in
  if Nat.leb 65 n && Nat.leb n 90 then ascii_of_nat (n + 32) else c.

Fixpoint ascii_casefold (s : string) : string :=
  match s with
  | EmptyString => EmptyString
  | String c s' => String (ascii_lower c) (ascii_casefold s')
  end.

(** Folding lowers A to Z; the examples give [str] and [float] only values
    on which [py_str] and [py_float] do not consult the table. *)
Definition ascii_builtins : PyBuiltins :=
  {| casefold := ascii_casefold;
     repr_other := λ _, "";
     float_of_str := λ _, None |}.

(** * The rest of the history store, its list box and its file *)

Section Store.
Context `{PyBuiltins}.

(** [item] is what [_selected_history_item()] returns. *)
Definition remove_selected (item : option entry) (history : list entry)
  : list entry :=
  match item with
  | None => history
  | Some item =>
      let txt := text item in
      filter (λ h, text h ≠ txt) history
  end.

(** [confirmed] is the answer to the [askyesno] box. *)
Definition clear_all (confirmed : bool) (history : list entry) : list entry :=
  if bool_decide (history = []) then history
  else if confirmed then [] else history.

(** The payload [_auto_save_history] and [save_as] hand to [json.dump];
    [json.load] gives it back as it is. *)
Definition save_payload (history : list entry) : json :=
  JList ((λ h, JDict [("text", JStr (text h)); ("ts", JNum (ts h));
                      ("pinned", JBool (pinned h))]) <$> history).

(** The capacity invariant, and the three invariants together. *)
Definition within_capacity (history : list entry) : Prop :=
  length (filter (λ h, ¬ pinned h) history) ≤ MAX_ITEMS.

Definition well_formed (history : list entry) : Prop :=
  distinct_texts history ∧ pinned_first history ∧ within_capacity history.

(** An entry as the program builds it from a clipboard text: the text is
    stripped and not empty, the fold key is derived from it. *)
Definition built_entry (e : entry) : Prop :=
  clean_text e ∧ fold e = casefold (text e).

(** [q in s] on strings. *)
Fixpoint is_infix (q s : string) : bool :=
  String.prefix q s
  || match s with
     | EmptyString => false
     | String _ s' => is_infix q s'
     end.

(** The list box: the entries behind its rows and the selected row. *)
Record listbox := Listbox {
  filtered_items : list entry;
  curselection : option nat
}.

Definition _selected_history_item (lb : listbox) : option entry :=
  match curselection lb with
  | None => None
  | Some idx => filtered_items lb !! idx
  end.

(** [_refresh_list]: the rows are rebuilt from the history under the query
    in [search_var], which clears the selection; the row of the first
    entry with the text selected before, if that text is not empty, is then
    selected. *)
Definition _refresh_list (search_var : string) (history : list entry)
  (lb : listbox) : listbox :=
  let selected := _selected_history_item lb in
  let selected_text := text <$> selected in
  let q := casefold (strip search_var) in
  let filtered_items :=
    filter (λ h, q = "" ∨ is_infix q (fold h)) history in
  let sel :=
    match selected_text with
    | Some t =>
        if bool_decide (t ≠ "") then
          fst <$> list_find (λ h, text h = t) filtered_items
        else None
    | None => None
    end in
  Listbox filtered_items sel.

(** The three mutators as the buttons and the watcher run them: on the
    history and the list box, with the refresh that ends each. *)
Definition capture_and_refresh (now : Q) (item : string) (search_var : string)
  (st : list entry * listbox) : list entry * listbox :=
  let history := _add_to_history now item st.1 in
  (history, _refresh_list search_var history st.2).

Definition toggle_pin_and_refresh (search_var : string)
  (st : list entry * listbox) : list entry * listbox :=
  match _selected_history_item st.2 with
  | None => st
  | Some item =>
      let history := toggle_pin_selected (Some item) st.1 in
      (history, _refresh_list search_var history st.2)
  end.

Definition remove_and_refresh (search_var : string)
  (st : list entry * listbox) : list entry * listbox :=
  match _selected_history_item st.2 with
  | None => st
  | Some item =>
      let history := remove_selected (Some item) st.1 in
      (history, _refresh_list search_var history st.2)
  end.

(** The managers the program reaches: it starts with the empty history,
    loads the file, and from then on polls the clipboard, toggles pins,
    removes and clears, the item of a pin or a removal being an entry of the
    history, as the list box shows no other. *)
Inductive reachable : manager → Prop :=
| reach_init paused : reachable (Manager [] None paused "" "" 0)
| reach_load now file self :
    reachable self →
    reachable (set_history (_load_history now file (history self)) self)
| reach_poll now clip self :
    reachable self → reachable (_poll_clipboard now clip self)
| reach_toggle_pin item self :
    reachable self → (∀ e, item = Some e → e ∈ history self) →
    reachable (set_history (toggle_pin_selected item (history self)) self)
| reach_remove item self :
    reachable self → (∀ e, item = Some e → e ∈ history self) →
    reachable (set_history (remove_selected item (history self)) self)
| reach_clear confirmed self :
    reachable self →
    reachable (set_history (clear_all confirmed (history self)) self)
| reach_monitoring self :
    reachable self → reachable (toggle_monitoring self)
| reach_search proposed self :
    reachable self → reachable (search_entry_edit proposed self).

End Store.

(** * More of the hotkey listener *)

(** The listener's binding and the operating system agree: a combination is
    registered only if it is the one the listener holds. *)
Definition binding_consistent (w : world) : Prop :=
  registered w.2 = None ∨ registered w.2 = Some (_mods w.1, _vk w.1).

(** What happens to a started listener: the controller requests a
    combination, or the window procedure receives a message. *)
Inductive action :=
| Request (mods vk : Z) (display : string)
| Deliver (msg : message).

Definition act (w : world) (a : action) : world :=
  match a with
  | Request mods vk display => (set_hotkey mods vk display w).2
  | Deliver msg => (wndproc msg w).2
  end.

(** The listener thread from its start: the first registration, then the
    actions in order; [g] decides the registrations. *)
Definition listener_run (g : nat → Z → Z → bool) (actions : list action)
  : world :=
  foldl act (_run_register (listener_init, User32 None 0 g)).2 actions.

(** * Single-instance server *)

(** In this part a [string] is a [bytes] object, its characters the bytes. *)

(** The bytes [bytes.strip()] takes off: space, tab, newline, return,
    vertical tab and form feed. *)
Definition bytes_isspace (c : ascii) : bool :=
  let n := nat_of_ascii c in
  (Nat.leb 9 n && Nat.leb n 13) || Nat.eqb n 32.

Fixpoint bytes_lstrip (s : string) : string :=
  match s with
  | EmptyString => EmptyString
  | String c s' => if bytes_isspace c then bytes_lstrip s' else s
  end.

Fixpoint bytes_rstrip (s : string) : string :=
  match s with
  | EmptyString => EmptyString
  | String c s' =>
      match bytes_rstrip s' with
      | EmptyString =>
          if bytes_isspace c then EmptyString else String c EmptyString
      | r => String c r
      end
  end.

Definition bytes_strip (s : string) : string := bytes_rstrip (bytes_lstrip s).

(** [bytes.upper()]: the bytes a to z become A to Z. *)
Definition byte_upper (c : ascii) : ascii :=
  let n := nat_of_ascii c in
  if Nat.leb 97 n && Nat.leb n 122 then ascii_of_nat (n - 32) else c.

Fixpoint bytes_upper (s : string) : string :=
  match s with
  | EmptyString => EmptyString
  | String c s' => String (byte_upper c) (bytes_upper s')
  end.

Fixpoint all_space (s : string) : bool :=
  match s with
  | EmptyString => true
  | String c s' => bytes_isspace c && all_space s'
  end.

Definition newline : string := String "010" EmptyString.

(** The request [send_show] sends and the reply [_run] sends. *)
Definition show_request : string := "SHOW" +:+ newline.
Definition ok_reply : string := "OK" +:+ newline.

(** The test [_run] applies to what it received. *)
Definition is_show (data : string) : bool :=
  String.prefix "SHOW" (bytes_upper (bytes_strip data)).

(** What the peer and the network do to one accepted connection: what
    [recv] returns ([None]: it raises) and whether [sendall] raises. *)
Record connection := Connection {
  recv : option string;
  sendall_raises : bool
}.

(** The body of the loop of [_run] for one accepted connection: the queue
    after it and the reply that left, if any. *)
Definition serve (conn : connection) (queue : list event)
  : list event * option string :=
  match recv conn with
  | None => (queue, None)
  | Some data =>
      let queue := if is_show data then queue ++ [SHOW] else queue in
      (queue, if sendall_raises conn then None else Some ok_reply)
  end.

(** Whether a connection delivers a show request. *)
Definition asks_show (conn : connection) : bool :=
  match recv conn with
  | Some data => is_show data
  | None => false
  end.

(** What [accept] does on one turn of the loop. *)
Inductive accepted :=
| Accepted (conn : connection)
| TimedOut
| AcceptFailed.

(** [_run] over the turns taken until the stop flag is set: a timeout goes
    on to the next turn, another failure of [accept] leaves the loop. *)
Fixpoint _run (turns : list accepted) (queue : list event)
  : list event * list (option string) :=
  match turns with
  | [] => (queue, [])
  | Accepted conn :: turns' =>
      let '(queue, reply) := serve conn queue in
      let '(queue, replies) := _run turns' queue in
      (queue, reply :: replies)
  | TimedOut :: turns' => _run turns' queue
  | AcceptFailed :: _ => (queue, [])
  end.

(** The connections [_run] serves: those accepted before [accept] fails. *)
Fixpoint served (turns : list accepted) : list connection :=
  match turns with
  | [] => []
  | Accepted conn :: turns' => conn :: served turns'
  | TimedOut :: turns' => served turns'
  | AcceptFailed :: _ => []
  end.

(** * Hotkey settings *)

(** [str.upper] and [int] on a [str], whose tables and grammar are not part
    of the program. *)
Class PyText := {
  upper : string → string;
  int_of_str : string → option Z
}.

(** A call that returns or raises. *)
Inductive outcome (A : Type) :=
| Returned (a : A)
| Raised.
Arguments Returned {A} a.
Arguments Raised {A}.

(** [ord(ch)]: a [TypeError] unless [ch] has one character. *)
Definition ord (ch : string) : outcome Z :=
  match ch with
  | String c EmptyString => Returned (Z.of_nat (nat_of_ascii c))
  | _ => Raised
  end.

(** [k[1:]] *)
Definition from_1 (k : string) : string :=
  match k with
  | EmptyString => EmptyString
  | String _ k' => k'
  end.

(** The fields of [ClipboardManager] that [_load_settings] and
    [_save_settings] read and write; [monitoring_paused] is the value of
    [monitoring_paused_var]. *)
Record settings := Settings {
  hk_ctrl : bool;
  hk_alt : bool;
  hk_shift : bool;
  hk_win : bool;
  hk_key : string;
  hk_display : string;
  monitoring_paused : bool
}.

Section Hotkeys.
Context `{PyBuiltins} `{PyText}.

(** [darwin] is [sys.platform == "darwin"]. *)
Definition _format_hotkey_display (darwin : bool) (ctrl alt shift win : bool)
  (key : string) : string :=
  let parts :=
    (if ctrl then ["Ctrl"] else [])
    ++ (if alt then ["Alt"] else [])
    ++ (if shift then ["Shift"] else [])
    ++ (if win then [if darwin then "Cmd" else "Win"] else []) in
  let k := strip key in
  let k := if bool_decide (String.length k = 1) then upper k else k in
  let parts := parts ++ [if bool_decide (k = "") then "?" else k] in
  String.concat "+" parts.

Definition vk_mapping (k : string) : option Z :=
  if bool_decide (k = "space") then Some 0x20%Z
  else if bool_decide (k = "Return") then Some 0x0D%Z
  else if bool_decide (k = "Tab") then Some 0x09%Z
  else if bool_decide (k = "Escape") then Some 0x1B%Z
  else None.

Definition _key_to_vk (key : string) : outcome (option Z) :=
  let k := strip key in
  let ch := upper k in
  if bool_decide (String.length k = 1)
     && ((String.leb "A" ch && String.leb ch "Z")
         || (String.leb "0" ch && String.leb ch "9"))
  then
    match ord ch with
    | Returned code => Returned (Some code)
    | Raised => Raised
    end
  else
    let fkey :=
      if String.prefix "F" (upper k) then
        match int_of_str (from_1 k) with
        | Some n =>
            if bool_decide (1 ≤ n ≤ 24)%Z then Some (0x70 + (n - 1))%Z
            else None
        | None => None
        end
      else None in
    match fkey with
    | Some vk => Returned (Some vk)
    | None => Returned (vk_mapping k)
    end.

Definition _hotkey_to_win32 (ctrl alt shift win : bool) (key : string)
  : outcome (Z * option Z) :=
  let mods := 0%Z in
  let mods := if ctrl then Z.lor mods MOD_CONTROL else mods in
  let mods := if alt then Z.lor mods MOD_ALT else mods in
  let mods := if shift then Z.lor mods MOD_SHIFT else mods in
  let mods := if win then Z.lor mods MOD_WIN else mods in
  let mods := Z.lor mods MOD_NOREPEAT in
  match _key_to_vk key with
  | Returned vk => Returned (mods, vk)
  | Raised => Raised
  end.

(** The dict [_save_settings] hands to [json.dump]. *)
Definition settings_payload (self : settings) : json :=
  JDict [("hotkey",
          JDict [("ctrl", JBool (hk_ctrl self)); ("alt", JBool (hk_alt self));
                 ("shift", JBool (hk_shift self)); ("win", JBool (hk_win self));
                 ("key", JStr (hk_key self))]);
         ("monitoring_paused", JBool (monitoring_paused self))].

(** [file] is [None] when [SETTINGS_PATH] does not exist or [json.load]
    raises.  A value without [get] (no dict) raises at the first access,
    before any field is assigned. *)
Definition _load_settings (darwin : bool) (file : option json) (self : settings)
  : settings :=
  let self :=
    match file with
    | Some (JDict s) =>
        match default (JDict []) (dict_get "hotkey" s) with
        | JDict hk =>
            Settings
              (py_bool (default (JBool (hk_ctrl self)) (dict_get "ctrl" hk)))
              (py_bool (default (JBool (hk_alt self)) (dict_get "alt" hk)))
              (py_bool (default (JBool (hk_shift self)) (dict_get "shift" hk)))
              (py_bool (default (JBool (hk_win self)) (dict_get "win" hk)))
              (py_str (default (JStr (hk_key self)) (dict_get "key" hk)))
              (hk_display self)
              (py_bool (default (JBool false)
                          (dict_get "monitoring_paused" s)))
        | _ => self
        end
    | _ => self
    end in
  Settings (hk_ctrl self) (hk_alt self) (hk_shift self) (hk_win self)
    (hk_key self)
    (_format_hotkey_display darwin (hk_ctrl self) (hk_alt self)
       (hk_shift self) (hk_win self) (hk_key self))
    (monitoring_paused self).

End Hotkeys.

(** ASCII texts, and the ASCII letters and digits. *)
Fixpoint is_ascii (s : string) : bool :=
  match s with
  | EmptyString => true
  | String c s' => Nat.ltb (nat_of_ascii c) 128 && is_ascii s'
  end.

Definition is_alnum (c : ascii) : bool :=
  let n := nat_of_ascii c in
  (Nat.leb 48 n && Nat.leb n 57) || (Nat.leb 65 n && Nat.leb n 90)
  || (Nat.leb 97 n && Nat.leb n 122).

(** The values a settings file leaves alone or sets: everything but the
    display string, which every load derives again. *)
Definition same_choice (a b : settings) : Prop :=
  hk_ctrl a = hk_ctrl b ∧ hk_alt a = hk_alt b ∧ hk_shift a = hk_shift b
  ∧ hk_win a = hk_win b ∧ hk_key a = hk_key b
  ∧ monitoring_paused a = monitoring_paused b.

(** A table for ASCII texts: upper case of a to z, and [int] on plain
    decimal digits. *)
Fixpoint decimal (acc : Z) (s : string) : option Z :=
  match s with
  | EmptyString => Some acc
  | String c s' =>
      let n := nat_of_ascii c in
      if Nat.leb 48 n && Nat.leb n 57
      then decimal (10 * acc + Z.of_nat (n - 48)) s'
      else None
  end.

Definition ascii_text : PyText :=
  {| upper := bytes_upper;
     int_of_str := λ s, if bool_decide (s = "") then None else decimal 0 s |}.

(** ** More data of the examples *)

Definition alpha_entry : entry := Entry "alpha" "alpha" 2 false.
Definition beta_entry : entry := Entry "beta" "beta" 1 true.

(** The list box showing [two_entries] with the second row selected. *)
Definition alpha_selected : listbox := Listbox two_entries (Some 1).

Definition default_settings : settings :=
  Settings true true false false "v" "Ctrl+Alt+V" true.

(** A settings file whose hotkey entry is a number. *)
Definition broken_settings_file : json :=
  JDict [("hotkey", JNum 5); ("monitoring_paused", JBool false)].

(** * Properties *)

Section HistoryFacts.
Context `{PyBuiltins}.

Implicit Types (h l : list entry) (e x : entry).

Lemma filter_all {A} (P : A → Prop) `{!∀ a, Decision (P a)} (l : list A) :
  Forall P l → filter P l = l.
Proof.
  induction 1 as [|a l Ha _ IH]; [done|].
  by rewrite filter_cons_True, IH.
Qed.

Lemma filter_none {A} (P : A → Prop) `{!∀ a, Decision (P a)} (l : list A) :
  Forall (λ a, ¬ P a) l → filter P l = [].
Proof.
  induction 1 as [|a l Ha _ IH]; [done|].
  by rewrite filter_cons_False.
Qed.

Lemma Forall_filter_self {A} (P : A → Prop) `{!∀ a, Decision (P a)}
  (l : list A) : Forall P (filter P l).
Proof. apply Forall_forall. by intros a [? _]%list_elem_of_filter. Qed.

Lemma filter_comm {A} (P Q : A → Prop)
  `{!∀ a, Decision (P a), !∀ a, Decision (Q a)} (l : list A) :
  filter P (filter Q l) = filter Q (filter P l).
Proof. rewrite !list_filter_filter. apply list_filter_iff. tauto. Qed.

Lemma py_insert_perm {A} i (a : A) (l : list A) : py_insert i a l ≡ₚ a :: l.
Proof.
  unfold py_insert. rewrite <- Permutation_middle.
  by rewrite take_drop.
Qed.

Lemma py_insert_0 {A} (a : A) (l : list A) : py_insert 0 a l = a :: l.
Proof. unfold py_insert. by rewrite take_0, drop_0. Qed.

(** Trimming keeps the pinned entries and the first [MAX_ITEMS] unpinned. *)
Lemma trim_eq h :
  _trim_history h
  = filter (λ x, pinned x) h ++ take MAX_ITEMS (filter (λ x, ¬ pinned x) h).
Proof.
  unfold _trim_history. case_decide; [done|].
  by rewrite take_ge by lia.
Qed.

Lemma trim_pinned h :
  filter (λ x, pinned x) (_trim_history h) = filter (λ x, pinned x) h.
Proof.
  rewrite trim_eq, filter_app.
  rewrite (filter_all _ (filter _ h)) by apply Forall_filter_self.
  rewrite (filter_none _ (take _ _)); [by rewrite app_nil_r|].
  apply Forall_take, Forall_filter_self.
Qed.

Lemma trim_unpinned h :
  filter (λ x, ¬ pinned x) (_trim_history h)
  = take MAX_ITEMS (filter (λ x, ¬ pinned x) h).
Proof.
  rewrite trim_eq, filter_app.
  rewrite (filter_none _ (filter _ h)).
  - simpl. apply filter_all, Forall_take, Forall_filter_self.
  - apply Forall_forall. intros a [Ha _]%list_elem_of_filter. tauto.
Qed.

Lemma trim_submseteq h : _trim_history h ⊆+ h.
Proof.
  rewrite trim_eq.
  rewrite <- (filter_app_complement (λ x, pinned x) h) at 3.
  apply submseteq_skips_l, sublist_submseteq, sublist_take.
Qed.

Lemma trim_pinned_first h : pinned_first (_trim_history h).
Proof.
  unfold pinned_first. rewrite trim_pinned, trim_unpinned. apply trim_eq.
Qed.

Lemma distinct_submseteq l1 l2 :
  l1 ⊆+ l2 → distinct_texts l2 → distinct_texts l1.
Proof.
  unfold distinct_texts. intros Hsub Hnd.
  apply (fmap_submseteq text) in Hsub.
  apply submseteq_Permutation in Hsub as [k Hk].
  rewrite Hk in Hnd. by apply NoDup_app in Hnd as [? _].
Qed.

(** The removal step of both mutators, on a history with distinct texts. *)
Lemma not_in_texts_filter item h :
  item ∉ text <$> filter (λ y, text y ≠ item) h.
Proof.
  intros (y & -> & [Hy _]%list_elem_of_filter)%list_elem_of_fmap. by apply Hy.
Qed.

Lemma filter_absent item h :
  item ∉ text <$> h → filter (λ y, text y ≠ item) h = h.
Proof.
  intros Hni. apply filter_all, Forall_forall. intros y Hy <-.
  apply Hni. by apply list_elem_of_fmap_2.
Qed.

Lemma found_delete_filter item h i x :
  distinct_texts h →
  list_find (λ y, text y = item) h = Some (i, x) →
  delete i h = filter (λ y, text y ≠ item) h.
Proof.
  unfold distinct_texts. revert i.
  induction h as [|a h IH]; intros i Hnd Hfind; [done|].
  rewrite fmap_cons in Hnd. apply NoDup_cons in Hnd as [Ha Hnd].
  cbn in Hfind. case_decide as Heq.
  - simplify_eq. cbn [delete list_delete].
    rewrite filter_cons_False by (intros Hne; by apply Hne).
    symmetry. by apply filter_absent.
  - destruct (list_find _ h) as [[j y]|] eqn:Hj; simplify_eq/=.
    rewrite filter_cons_True by done.
    f_equal. by eapply IH.
Qed.

Lemma first_with_text_distinct h e :
  distinct_texts h → e ∈ h → first_with_text (text e) h = Some e.
Proof.
  unfold distinct_texts, first_with_text. intros Hnd Hin.
  destruct (list_find_elem_of (λ y, text y = text e) h e Hin eq_refl)
    as [[i x] Hfind].
  rewrite Hfind. simpl. f_equal.
  apply list_find_Some in Hfind as (Hi & Hx & _).
  apply list_elem_of_lookup in Hin as [j Hj].
  assert (i = j) as ->; [|congruence].
  apply (NoDup_lookup _ _ _ (text e) Hnd); rewrite list_lookup_fmap.
  - by rewrite Hi; simpl; f_equal.
  - by rewrite Hj.
Qed.

Lemma first_with_text_None item h :
  first_with_text item h = None → item ∉ text <$> h.
Proof.
  unfold first_with_text. rewrite fmap_None, list_find_None, Forall_forall.
  intros Hall (y & -> & Hy)%list_elem_of_fmap. by apply (Hall y).
Qed.

(** [_add_to_history] on a history with distinct texts: drop the entry with
    the text, insert the fresh one, trim. *)
Lemma add_eq now item h :
  distinct_texts h →
  _add_to_history now item h
  = let p := from_option pinned false (first_with_text item h) in
    let rest := filter (λ y, text y ≠ item) h in
    _trim_history
      (py_insert (if p then 0 else length (filter (λ y, pinned y) rest))
         (Entry item (casefold item) now p) rest).
Proof.
  intros Hnd. unfold _add_to_history, first_with_text.
  destruct (list_find _ h) as [[i x]|] eqn:Hfind; simpl.
  - rewrite (found_delete_filter item h i x Hnd Hfind). by destruct (pinned x).
  - rewrite filter_absent; [done|].
    apply first_with_text_None. unfold first_with_text. by rewrite Hfind.
Qed.

Lemma add_is_trim now item h :
  ∃ l, _add_to_history now item h = _trim_history l.
Proof.
  unfold _add_to_history.
  destruct (list_find _ h) as [[i x]|]; [destruct (pinned x)|]; eauto.
Qed.

Lemma add_distinct now item h :
  distinct_texts h → distinct_texts (_add_to_history now item h).
Proof.
  intros Hnd. rewrite add_eq by done. cbv zeta.
  eapply distinct_submseteq; [apply trim_submseteq|].
  unfold distinct_texts. rewrite py_insert_perm, fmap_cons. simpl.
  apply NoDup_cons. split; [apply not_in_texts_filter|].
  eapply (distinct_submseteq _ h); [|done].
  apply sublist_submseteq, sublist_filter.
Qed.

(** C1. Captures applied to a history with no two entries of equal text
    leave a history with no two entries of equal text, whatever the run of
    captures. *)
Theorem capture_keeps_one_entry_per_text cs h :
  NoDup (text <$> h) → NoDup (text <$> captures cs h).
Proof.
  unfold captures. revert h.
  induction cs as [|[now item] cs IH]; intros h Hnd; [done|].
  simpl. apply IH. by apply add_distinct.
Qed.

(** C2. Trimming drops the unpinned entries after the first [MAX_ITEMS] and
    nothing else: the pinned entries are all kept, in order; and after a
    capture, hence after any run of captures, at most [MAX_ITEMS] entries
    are unpinned. *)
Theorem eviction_caps_unpinned_keeps_pinned h :
  _trim_history h
    = filter (λ x, pinned x) h ++ take MAX_ITEMS (filter (λ x, ¬ pinned x) h)
  ∧ filter (λ x, pinned x) (_trim_history h) = filter (λ x, pinned x) h
  ∧ filter (λ x, ¬ pinned x) (_trim_history h)
    = take MAX_ITEMS (filter (λ x, ¬ pinned x) h)
  ∧ length (filter (λ x, ¬ pinned x) (_trim_history h)) ≤ MAX_ITEMS
  ∧ (∀ now item,
       length (filter (λ x, ¬ pinned x) (_add_to_history now item h))
       ≤ MAX_ITEMS)
  ∧ (∀ cs c,
       length (filter (λ x, ¬ pinned x) (captures (cs ++ [c]) h))
       ≤ MAX_ITEMS).
Proof.
  assert (Hcap : ∀ l, length (filter (λ x, ¬ pinned x) (_trim_history l))
                      ≤ MAX_ITEMS).
  { intros l. rewrite trim_unpinned, length_take. lia. }
  split_and!; auto using trim_eq, trim_pinned, trim_unpinned.
  - intros now item. destruct (add_is_trim now item h) as [l ->]. apply Hcap.
  - intros cs [now item]. unfold captures. rewrite foldl_app. simpl.
    destruct (add_is_trim now item
                (foldl (λ h0 c, _add_to_history c.1 c.2 h0) h cs)) as [l ->].
    apply Hcap.
Qed.

(** C5. In a history with one entry per text, capturing a text whose entry
    is pinned puts at position 0 an entry with that text, still pinned,
    stamped with the capture time; no other entry has the text. *)
Theorem capture_of_pinned_text now item h e :
  NoDup (text <$> h) →
  e ∈ h → text e = item → pinned e = true →
  ∃ rest,
    _add_to_history now item h = Entry item (casefold item) now true :: rest
    ∧ _add_to_history now item h !! 0
      = Some (Entry item (casefold item) now true)
    ∧ item ∉ text <$> rest.
Proof.
  intros Hnd Hin <- Hp. rewrite add_eq by done. cbv zeta.
  rewrite (first_with_text_distinct h e Hnd Hin). simpl. rewrite Hp.
  rewrite py_insert_0, trim_eq.
  rewrite filter_cons_True by done.
  rewrite filter_cons_False by (simpl; tauto).
  eexists. split_and!; [reflexivity|done|].
  intros (y & Hy & Hin')%list_elem_of_fmap.
  assert (y ∈ filter (λ y, text y ≠ text e) h) as [Hne _]%list_elem_of_filter;
    [|by apply Hne].
  apply elem_of_app in Hin' as [Hin'|Hin'].
  - by apply list_elem_of_filter in Hin' as [_ ?].
  - apply (elem_of_submseteq _ _ _ Hin').
    etrans; [apply sublist_submseteq, sublist_take|].
    apply sublist_submseteq, sublist_filter.
Qed.

(** ** Pinning *)

Lemma distinct_inj h x y :
  distinct_texts h → x ∈ h → y ∈ h → text x = text y → x = y.
Proof.
  unfold distinct_texts.
  intros Hnd [i Hi]%list_elem_of_lookup [j Hj]%list_elem_of_lookup Heq.
  assert (i = j) as ->; [|congruence].
  apply (NoDup_lookup _ _ _ (text x) Hnd); rewrite list_lookup_fmap.
  - by rewrite Hi.
  - rewrite Hj. simpl. by f_equal.
Qed.

Lemma pinned_first_split h :
  pinned_first h →
  ∃ A B, h = A ++ B ∧ Forall (λ x, pinned x) A ∧ Forall (λ x, ¬ pinned x) B.
Proof.
  intros Hpf. eexists _, _. split; [exact Hpf|].
  split; apply Forall_filter_self.
Qed.

Lemma filter_pinned_app A B :
  Forall (λ x, pinned x) A → Forall (λ x, ¬ pinned x) B →
  filter (λ x, pinned x) (A ++ B) = A
  ∧ filter (λ x, ¬ pinned x) (A ++ B) = B.
Proof.
  intros HA HB. rewrite !filter_app.
  rewrite (filter_all _ A HA), (filter_all _ B HB).
  rewrite (filter_none (λ x, pinned x) B HB).
  rewrite (filter_none (λ x, ¬ pinned x) A).
  - by rewrite app_nil_r.
  - eapply Forall_impl; [exact HA|]. simpl. tauto.
Qed.

(** On a history with the pinned entries first, index [pinned_count] is
    the front of the unpinned block. *)
Lemma insert_at_pinned_count h e :
  pinned_first h →
  py_insert (length (filter (λ x, pinned x) h)) e h
  = filter (λ x, pinned x) h ++ e :: filter (λ x, ¬ pinned x) h.
Proof.
  intros (A & B & -> & HA & HB)%pinned_first_split.
  destruct (filter_pinned_app A B HA HB) as [-> ->].
  unfold py_insert. by rewrite take_app_length, drop_app_length.
Qed.

Lemma pinned_first_filter (P : entry → Prop) `{!∀ x, Decision (P x)} h :
  pinned_first h → pinned_first (filter P h).
Proof.
  intros (A & B & -> & HA & HB)%pinned_first_split.
  unfold pinned_first. rewrite filter_app.
  assert (HA' : Forall (λ x, pinned x) (filter P A)).
  { apply Forall_forall. intros x [_ Hx]%list_elem_of_filter.
    by apply (proj1 (Forall_forall _ _) HA). }
  assert (HB' : Forall (λ x, ¬ pinned x) (filter P B)).
  { apply Forall_forall. intros x [_ Hx]%list_elem_of_filter.
    by apply (proj1 (Forall_forall _ _) HB). }
  by destruct (filter_pinned_app _ _ HA' HB') as [-> ->].
Qed.

(** Pinning: the entry goes to position 0, the rest is trimmed. *)
Lemma toggle_pin_eq x h :
  pinned x = false →
  toggle_pin_selected (Some x) h
  = Entry (text x) (casefold (text x)) (ts x) true
      :: _trim_history (filter (λ y, text y ≠ text x) h).
Proof.
  intros Hx. unfold toggle_pin_selected. rewrite Hx. simpl.
  rewrite py_insert_0, !trim_eq.
  rewrite filter_cons_True by done.
  by rewrite filter_cons_False by (simpl; tauto).
Qed.

(** Unpinning: the entry goes to the front of the unpinned block, of which
    the first [MAX_ITEMS - 1] others stay. *)
Lemma toggle_unpin_eq x h :
  pinned x = true → pinned_first h →
  toggle_pin_selected (Some x) h
  = filter (λ y, pinned y) (filter (λ y, text y ≠ text x) h)
    ++ Entry (text x) (casefold (text x)) (ts x) false
    :: take (MAX_ITEMS - 1)
         (filter (λ y, ¬ pinned y) (filter (λ y, text y ≠ text x) h)).
Proof.
  intros Hx Hpf. unfold toggle_pin_selected. rewrite Hx. simpl.
  rewrite insert_at_pinned_count by by apply pinned_first_filter.
  rewrite trim_eq.
  match goal with |- context [?A ++ ?e :: ?B] =>
    destruct (filter_pinned_app A (e :: B)) as [-> ->]
  end.
  - apply Forall_filter_self.
  - apply Forall_cons; split; [simpl; tauto|apply Forall_filter_self].
  - done.
Qed.

(** C6. Pinning an unpinned entry of the history and then unpinning it (the
    list box keeps the entry selected by its text) leaves an entry with the
    same text and the same timestamp, unpinned, at the front of the
    unpinned block; no other entry carries the text. *)
Theorem toggle_pin_twice_restores_unpinned h e :
  e ∈ h → pinned e = false →
  let h1 := toggle_pin_selected (Some e) h in
  let h2 := toggle_pin_selected (first_with_text (text e) h1) h1 in
  ∃ P U,
    h2 = P ++ Entry (text e) (casefold (text e)) (ts e) false :: U
    ∧ Forall (λ x, pinned x) P
    ∧ Forall (λ x, ¬ pinned x) U
    ∧ text e ∉ text <$> (P ++ U).
Proof.
  intros _ Hp h1 h2. subst h2 h1. rewrite (toggle_pin_eq e h Hp).
  set (e1 := Entry (text e) (casefold (text e)) (ts e) true).
  set (rest := filter (λ y, text y ≠ text e) h).
  assert (Hsel : first_with_text (text e) (e1 :: _trim_history rest) = Some e1).
  { unfold first_with_text. cbn. by rewrite decide_True. }
  rewrite Hsel.
  assert (Hpf : pinned_first (e1 :: _trim_history rest)).
  { pose proof (trim_pinned_first (e1 :: rest)) as Hpf.
    rewrite trim_eq in Hpf. rewrite trim_eq.
    rewrite filter_cons_True in Hpf by done.
    by rewrite filter_cons_False in Hpf by (simpl; tauto). }
  rewrite (toggle_unpin_eq e1 _ eq_refl Hpf). simpl.
  eexists _, _. split; [reflexivity|].
  split; [apply Forall_filter_self|].
  split; [apply Forall_take, Forall_filter_self|].
  intros (y & Hy & Hin)%list_elem_of_fmap.
  assert (y ∈ filter (λ y, text y ≠ text e) (e1 :: _trim_history rest))
    as [Hne _]%list_elem_of_filter; [|by apply Hne].
  apply elem_of_app in Hin as [Hin|Hin].
  - by apply list_elem_of_filter in Hin as [_ ?].
  - apply (elem_of_submseteq _ _ _ Hin).
    etrans; [apply sublist_submseteq, sublist_take|].
    apply sublist_submseteq, sublist_filter.
Qed.

(** C10. When exactly [MAX_ITEMS] entries are unpinned, unpinning a pinned
    entry puts it at the front of the unpinned block and drops the last
    unpinned entry, which is another entry of the history. *)
Theorem unpin_at_capacity_evicts_tail h e :
  NoDup (text <$> h) → pinned_first h →
  e ∈ h → pinned e = true →
  length (filter (λ x, ¬ pinned x) h) = MAX_ITEMS →
  ∃ t,
    last (filter (λ x, ¬ pinned x) h) = Some t
    ∧ t ∈ h ∧ text t ≠ text e
    ∧ toggle_pin_selected (Some e) h
      = filter (λ x, pinned x) (filter (λ y, text y ≠ text e) h)
        ++ Entry (text e) (casefold (text e)) (ts e) false
        :: take (MAX_ITEMS - 1) (filter (λ x, ¬ pinned x) h)
    ∧ text t ∉ text <$> toggle_pin_selected (Some e) h.
Proof.
  intros Hnd Hpf Hin Hp Hlen.
  set (U := filter (λ x, ¬ pinned x) h) in *.
  assert (HUe : filter (λ x, ¬ pinned x) (filter (λ y, text y ≠ text e) h)
                = U).
  { rewrite filter_comm. apply filter_all, Forall_forall.
    intros y [Hyp Hyin]%list_elem_of_filter Heq. apply Hyp.
    rewrite (distinct_inj h y e Hnd Hyin Hin Heq). by rewrite Hp. }
  destruct (last U) as [t|] eqn:Hlast; cycle 1.
  { apply last_None in Hlast. rewrite Hlast in Hlen. discriminate. }
  apply last_Some in Hlast as [U' HU'].
  assert (HtU : t ∈ U) by (rewrite HU'; set_solver).
  apply list_elem_of_filter in HtU as [Htp Hth].
  assert (Hte : text t ≠ text e).
  { intros Heq. apply Htp.
    rewrite (distinct_inj h t e Hnd Hth Hin Heq). by rewrite Hp. }
  exists t. split_and!; [done..| |].
  - rewrite (toggle_unpin_eq e h Hp Hpf). by rewrite HUe.
  - rewrite (toggle_unpin_eq e h Hp Hpf), HUe.
    rewrite fmap_app, fmap_cons. simpl.
    rewrite elem_of_app, elem_of_cons.
    intros [Hx|[Hx|Hx]]; [| done |].
    + apply list_elem_of_fmap in Hx as (y & Hy & Hyin).
      apply list_elem_of_filter in Hyin as [Hyp Hyin].
      apply list_elem_of_filter in Hyin as [_ Hyin].
      apply Htp. by rewrite (distinct_inj h t y Hnd Hth Hyin Hy).
    + assert (HndU : NoDup (text <$> U)).
      { eapply (distinct_submseteq U h); [|done].
        apply sublist_submseteq, sublist_filter. }
      rewrite HU', length_app in Hlen. simpl in Hlen.
      rewrite HU' in Hx, HndU.
      rewrite take_app_length' in Hx by (unfold MAX_ITEMS in *; lia).
      rewrite fmap_app in HndU. apply NoDup_app in HndU as (_ & Hdis & _).
      apply (Hdis _ Hx). simpl. by left.
Qed.

End HistoryFacts.

Section WatcherFacts.
Context `{PyBuiltins}.

(** C4. A poll tick whose clipboard read fails, yields no string, or yields
    a string that is empty once stripped returns the manager it was given:
    the history and [last_clip] are untouched and nothing is raised, paused
    or not. *)
Theorem blank_clipboard_is_ignored now clip self :
  (∀ data, clip = ClipStr data → strip data = "") →
  _poll_clipboard now clip self = self.
Proof.
  intros Hblank. unfold _poll_clipboard.
  destruct clip as [data| |]; simpl; [|done..].
  rewrite (Hblank data eq_refl). by rewrite bool_decide_false by (by intros ?).
Qed.

(** C7. A poll tick that reads a text non-empty once stripped leaves
    [last_clip] equal to the stripped text, paused or not; it captures
    exactly when monitoring is not paused and the stripped text differs
    from the previous [last_clip]; and a text first seen while paused is not
    captured by the tick that follows the resumption. *)
Theorem poll_tracks_last_clip now data self :
  strip data ≠ "" →
  let self' := _poll_clipboard now (ClipStr data) self in
  last_clip self' = Some (strip data)
  ∧ monitoring_paused_var self' = monitoring_paused_var self
  ∧ history self'
    = (if monitoring_paused_var self then history self
       else if decide (last_clip self = Some (strip data)) then history self
       else _add_to_history now (strip data) (history self))
  ∧ (monitoring_paused_var self = true →
     ∀ now',
       _poll_clipboard now' (ClipStr data) (toggle_monitoring self')
       = toggle_monitoring self'
       ∧ history (toggle_monitoring self') = history self
       ∧ monitoring_paused_var (toggle_monitoring self') = false).
Proof.
  intros Hne self'. subst self'. unfold _poll_clipboard. simpl.
  rewrite bool_decide_true by done.
  destruct (monitoring_paused_var self) eqn:Hpaused.
  - simpl. split_and!; [done..|].
    intros _ now'. rewrite Hpaused. simpl.
    by rewrite bool_decide_false by (by intros Hd; apply Hd).
  - destruct (decide (last_clip self = Some (strip data))) as [Heq|Hdiff].
    + rewrite bool_decide_false by (by intros Hd; apply Hd).
      by split_and!.
    + rewrite bool_decide_true by (by intros Heq; apply Hdiff).
      simpl. by split_and!.
Qed.

(** C9. [_validate_search] accepts a proposed text exactly when it has at
    most [MAX_SEARCH_CHARS] characters.  An accepted edit becomes the
    query; a longer one leaves the query as it was, rings the bell and sets
    the warning, and nothing is cut from it. *)
Theorem search_rejects_over_length proposed self :
  ((_validate_search proposed self).1 = true
   ↔ String.length proposed ≤ MAX_SEARCH_CHARS)
  ∧ MAX_SEARCH_CHARS = 200
  ∧ (String.length proposed ≤ MAX_SEARCH_CHARS →
     search_var (search_entry_edit proposed self) = proposed)
  ∧ (MAX_SEARCH_CHARS < String.length proposed →
     let self' := search_entry_edit proposed self in
     search_var self' = search_var self
     ∧ search_warn_var self' = "Search limited to 200 characters"
     ∧ bells self' = S (bells self)
     ∧ history self' = history self).
Proof.
  unfold search_entry_edit, _validate_search.
  case_decide as Hlen; simpl.
  - split_and!; [done|done|done|lia].
  - split_and!; [|done|lia|done].
    split; [done|lia].
Qed.

End WatcherFacts.

(** ** Stripping *)

Lemma rstrip_idem s : rstrip (rstrip s) = rstrip s.
Proof.
  induction s as [|c s IH]; [done|]. simpl.
  destruct (rstrip s) as [|a r] eqn:Hr.
  - destruct (isspace c) eqn:Hc; [done|]. simpl. by rewrite Hc.
  - change (rstrip (String c (String a r))) with
      (match rstrip (String a r) with
       | EmptyString => if isspace c then EmptyString else String c EmptyString
       | r' => String c r'
       end).
    by rewrite IH.
Qed.

Lemma lstrip_head s c u : lstrip s = String c u → isspace c = false.
Proof.
  induction s as [|a s IH]; [done|]. simpl.
  destruct (isspace a) eqn:Ha; [done|]. by intros [= <- _].
Qed.

Lemma rstrip_head c u :
  isspace c = false → ∃ r, rstrip (String c u) = String c r.
Proof.
  intros Hc. simpl. destruct (rstrip u); rewrite ?Hc; eauto.
Qed.

Lemma strip_idem s : strip (strip s) = strip s.
Proof.
  unfold strip. destruct (lstrip s) as [|c u] eqn:Hl; [done|].
  destruct (rstrip_head c u (lstrip_head s c u Hl)) as [r Hr].
  rewrite Hr. cbn [lstrip]. rewrite (lstrip_head s c u Hl).
  by rewrite <- Hr, rstrip_idem.
Qed.


Section LoaderFacts.
Context `{PyBuiltins}.

Implicit Types (e : entry) (items : list entry) (seen : gset string).

Lemma dedupe_sublist seen items : dedupe seen items `sublist_of` items.
Proof.
  revert seen. induction items as [|a items IH]; intros seen; [done|].
  simpl. case_bool_decide; by constructor.
Qed.

Lemma dedupe_first seen items e :
  e ∈ dedupe seen items →
  (text e ∉ seen) ∧ text e ≠ "" ∧ first_with_text (text e) items = Some e.
Proof.
  unfold first_with_text. revert seen.
  induction items as [|a items IH]; intros seen; simpl; [by intros ?%elem_of_nil|].
  case_bool_decide as Ha.
  - intros (Hns & Hne & Hsel)%IH. split_and!; [done..|].
    rewrite decide_False; [|intros Heq; rewrite Heq in Ha; tauto].
    destruct (list_find _ items) as [[i x]|]; by simplify_eq/=.
  - intros [->|Hin]%elem_of_cons.
    + rewrite decide_True by done. split_and!; [tauto|tauto|done].
    + apply IH in Hin as ([Hna Hns]%not_elem_of_union & Hne & Hsel).
      apply not_elem_of_singleton in Hna.
      split_and!; [done..|].
      rewrite decide_False by done.
      destruct (list_find _ items) as [[i x]|]; by simplify_eq/=.
Qed.

Lemma dedupe_distinct seen items : distinct_texts (dedupe seen items).
Proof.
  unfold distinct_texts. revert seen.
  induction items as [|a items IH]; intros seen; simpl; [constructor|].
  case_bool_decide; [done|].
  rewrite fmap_cons. apply NoDup_cons. split; [|done].
  intros (y & Hy & ([Hna _]%not_elem_of_union & _)%dedupe_first)
    %list_elem_of_fmap.
  apply not_elem_of_singleton in Hna. by apply Hna.
Qed.
















End LoaderFacts.

(** The two persisted files of the specification's scenario: the record
    with an empty text is dropped, and the legacy list loads as two unpinned
    entries, the first the newer. *)
Example load_scenarios :
  @_load_history ascii_builtins 100
    (Some (JList [JDict [("text", JStr ""); ("pinned", JBool true)]])) []
  = []
  ∧ ∃ tx ty,
      @_load_history ascii_builtins 100 (Some (JList [JStr "x"; JStr "y"])) []
      = [Entry "x" "x" tx false; Entry "y" "y" ty false]
      ∧ (ty < tx)%Q.
Proof. split; [reflexivity|]. eexists _, _. split; reflexivity. Qed.

(** The capture scenario of the specification: alpha, beta, alpha leaves
    alpha (newest) before beta; pinning beta puts it first; after 51 further
    captures 50 unpinned entries remain, the two oldest (alpha and the
    first of the 51) being evicted, and beta is still first. *)
Example capture_scenario :
  let h := @captures ascii_builtins
             [(1%Q, "alpha"); (2%Q, "beta"); (3%Q, "alpha")] [] in
  let h' := @toggle_pin_selected ascii_builtins (first_with_text "beta" h) h in
  let h'' := @captures ascii_builtins
               ((λ i : nat, (inject_Z (Z.of_nat i), pretty i)) <$> seq 4 51)
               h' in
  h = [Entry "alpha" "alpha" 3 false; Entry "beta" "beta" 2 false]
  ∧ h' = [Entry "beta" "beta" 2 true; Entry "alpha" "alpha" 3 false]
  ∧ h'' !! 0 = Some (Entry "beta" "beta" 2 true)
  ∧ length h'' = 51
  ∧ first_with_text "alpha" h'' = None
  ∧ first_with_text "4" h'' = None
  ∧ first_with_text "5" h'' = Some (Entry "5" "5" 5 false).
Proof. vm_compute. by split_and!. Qed.


(** ** Hotkey replacement *)

(** C3 (amended). Handling a well-formed replacement request: when the new
    registration is granted the new combination is registered, becomes the
    listener's binding and an INFO event is queued; when it is refused the
    listener keeps its binding, and either the rollback registration is
    granted, the previous combination is registered again and an ERROR event
    names it as kept, or it is refused too, no combination is registered and
    a distinct ERROR event is queued. *)
Theorem replace_outcomes w new_mods new_vk new_disp :
  _pending_mods w.1 = Some new_mods →
  _pending_vk w.1 = Some new_vk →
  _pending_display w.1 = Some new_disp → new_disp ≠ "" →
  let w' := (wndproc WM_APP_SET_HOTKEY w).2 in
  let granted := grants w.2 (calls w.2) new_mods new_vk in
  let rolled_back := grants w.2 (S (calls w.2)) (_mods w.1) (_vk w.1) in
  if granted then
    registered w'.2 = Some (new_mods, new_vk)
    ∧ (_mods w'.1, _vk w'.1, _display w'.1) = (new_mods, new_vk, new_disp)
    ∧ q w'.1 = q w.1 ++ [INFO ("Hotkey set to: " +:+ new_disp)]
  else
    (_mods w'.1, _vk w'.1, _display w'.1) = (_mods w.1, _vk w.1, _display w.1)
    ∧ if rolled_back then
        registered w'.2 = Some (_mods w.1, _vk w.1)
        ∧ q w'.1
          = q w.1 ++ [ERROR ("Hotkey '" +:+ new_disp
                             +:+ "' unavailable (already used). Kept: "
                             +:+ _display w.1)]
      else
        registered w'.2 = None
        ∧ q w'.1
          = q w.1 ++ [ERROR "Hotkey registration failed and rollback failed."].
Proof.
  destruct w as [[id mods vk disp pm pv pd evs] [reg n g]]. simpl.
  intros -> -> -> Hdisp.
  unfold wndproc, mbind, Win_bind, get_self. simpl.
  rewrite bool_decide_false by done.
  unfold unregister_hotkey, register_hotkey. simpl.
  destruct (g n new_mods new_vk); simpl; [done|].
  destruct (g (S n) mods vk); simpl; done.
Qed.

(** C3 as stated fails: in the run where only the first registration is
    granted, the request for Ctrl+Alt+B leaves neither it nor Ctrl+Alt+V
    registered. *)
Lemma replace_can_leave_nothing_registered :
  ¬ replace_is_atomic requested_world.
Proof.
  intros Hatomic.
  destruct (Hatomic _ _ "Ctrl+Alt+B" (16387, 86)%Z
              eq_refl eq_refl eq_refl ltac:(done) eq_refl) as [Hreg|Hreg];
    vm_compute in Hreg; discriminate.
Qed.

(** ** The theorems at concrete inputs *)

Lemma two_entries_distinct : NoDup (text <$> two_entries).
Proof. by apply (bool_decide_unpack _). Defined.

Lemma capture_keeps_one_entry_per_text_witness :
  NoDup (text <$> two_entries)
  ∧ NoDup (text <$> @captures ascii_builtins
                      [(3%Q, "alpha"); (4%Q, "Gamma")] two_entries).
Proof.
  split; [exact two_entries_distinct|].
  exact (@capture_keeps_one_entry_per_text ascii_builtins
           [(3%Q, "alpha"); (4%Q, "Gamma")] two_entries two_entries_distinct).
Defined.

Lemma capture_of_pinned_text_witness :
  NoDup (text <$> two_entries)
  ∧ Entry "beta" "beta" 1 true ∈ two_entries
  ∧ ∃ rest,
      @_add_to_history ascii_builtins 9 "beta" two_entries
      = Entry "beta" "beta" 9 true :: rest
      ∧ @_add_to_history ascii_builtins 9 "beta" two_entries !! 0
        = Some (Entry "beta" "beta" 9 true)
      ∧ "beta" ∉ text <$> rest.
Proof.
  split; [exact two_entries_distinct|].
  split; [by left|].
  exact (@capture_of_pinned_text ascii_builtins 9 "beta" two_entries
           (Entry "beta" "beta" 1 true) two_entries_distinct
           (list_elem_of_here _ _) eq_refl eq_refl).
Defined.

Lemma toggle_pin_twice_restores_unpinned_witness :
  Entry "alpha" "alpha" 2 false ∈ two_entries
  ∧ ∃ P U,
      (let h1 := @toggle_pin_selected ascii_builtins
                   (Some (Entry "alpha" "alpha" 2 false)) two_entries in
       @toggle_pin_selected ascii_builtins (first_with_text "alpha" h1) h1)
      = P ++ Entry "alpha" "alpha" 2 false :: U
      ∧ Forall (λ x, pinned x) P
      ∧ Forall (λ x, ¬ pinned x) U
      ∧ "alpha" ∉ text <$> (P ++ U).
Proof.
  assert (Hin : Entry "alpha" "alpha" 2 false ∈ two_entries)
    by (right; left).
  split; [exact Hin|].
  exact (@toggle_pin_twice_restores_unpinned ascii_builtins two_entries
           (Entry "alpha" "alpha" 2 false) Hin eq_refl).
Defined.

Lemma unpin_at_capacity_evicts_tail_witness :
  NoDup (text <$> full_history)
  ∧ pinned_first full_history
  ∧ length (filter (λ x, ¬ pinned x) full_history) = MAX_ITEMS
  ∧ ∃ t,
      last (filter (λ x, ¬ pinned x) full_history) = Some t
      ∧ t ∈ full_history ∧ text t ≠ "pin"
      ∧ @toggle_pin_selected ascii_builtins
          (Some (Entry "pin" "pin" 0 true)) full_history
        = filter (λ x, pinned x) (filter (λ y, text y ≠ "pin") full_history)
          ++ Entry "pin" "pin" 0 false
          :: take (MAX_ITEMS - 1) (filter (λ x, ¬ pinned x) full_history)
      ∧ text t ∉ text <$> @toggle_pin_selected ascii_builtins
                            (Some (Entry "pin" "pin" 0 true)) full_history.
Proof.
  assert (Hnd : NoDup (text <$> full_history))
    by (apply (bool_decide_unpack _); vm_compute; exact I).
  assert (Hpf : pinned_first full_history) by (vm_compute; reflexivity).
  assert (Hlen : length (filter (λ x, ¬ pinned x) full_history) = MAX_ITEMS)
    by (vm_compute; reflexivity).
  split_and!; [exact Hnd|exact Hpf|exact Hlen|].
  exact (@unpin_at_capacity_evicts_tail ascii_builtins full_history
           (Entry "pin" "pin" 0 true) Hnd Hpf (list_elem_of_here _ _)
           eq_refl Hlen).
Defined.

Lemma blank_clipboard_is_ignored_witness :
  (∀ data, ClipStr "  " = ClipStr data → strip data = "")
  ∧ @_poll_clipboard ascii_builtins 7 (ClipStr "  ")
      (Manager two_entries (Some "beta") false "" "" 0)
    = Manager two_entries (Some "beta") false "" "" 0.
Proof.
  assert (Hblank : ∀ data, ClipStr "  " = ClipStr data → strip data = "")
    by (intros data [= <-]; reflexivity).
  split; [exact Hblank|].
  exact (@blank_clipboard_is_ignored ascii_builtins 7 (ClipStr "  ")
           (Manager two_entries (Some "beta") false "" "" 0) Hblank).
Defined.

Lemma poll_tracks_last_clip_witness :
  strip " hello " ≠ ""
  ∧ last_clip (@_poll_clipboard ascii_builtins 7 (ClipStr " hello ")
                 idle_manager) = Some "hello"
  ∧ history (@_poll_clipboard ascii_builtins 8 (ClipStr " hello ")
               (toggle_monitoring
                  (@_poll_clipboard ascii_builtins 7 (ClipStr " hello ")
                     idle_manager))) = [].
Proof.
  assert (Hne : strip " hello " ≠ "") by (vm_compute; discriminate).
  pose proof (@poll_tracks_last_clip ascii_builtins 7 " hello " idle_manager
                Hne) as (Hlast & _ & _ & Hresume).
  split; [exact Hne|]. split; [exact Hlast|].
  destruct (Hresume eq_refl 8%Q) as (-> & -> & _). reflexivity.
Defined.

Lemma search_rejects_over_length_witness :
  String.length "abc" ≤ MAX_SEARCH_CHARS
  ∧ search_var (search_entry_edit "abc" idle_manager) = "abc"
  ∧ MAX_SEARCH_CHARS < String.length long_query
  ∧ search_var (search_entry_edit long_query idle_manager) = ""
  ∧ bells (search_entry_edit long_query idle_manager) = 1.
Proof.
  assert (Hshort : String.length "abc" ≤ MAX_SEARCH_CHARS)
    by (vm_compute; lia).
  assert (Hlong : MAX_SEARCH_CHARS < String.length long_query)
    by (vm_compute; lia).
  pose proof (search_rejects_over_length "abc" idle_manager)
    as (_ & _ & Hok & _).
  pose proof (search_rejects_over_length long_query idle_manager)
    as (_ & _ & _ & Hrej).
  destruct (Hrej Hlong) as (Hq & _ & Hb & _).
  split_and!; [exact Hshort|exact (Hok Hshort)|exact Hlong|exact Hq|exact Hb].
Defined.


Lemma replace_outcomes_witness :
  _pending_mods requested_world.1 = Some 16387%Z
  ∧ _pending_vk requested_world.1 = Some 66%Z
  ∧ _pending_display requested_world.1 = Some "Ctrl+Alt+B"
  ∧ registered (wndproc WM_APP_SET_HOTKEY requested_world).2.2 = None
  ∧ q (wndproc WM_APP_SET_HOTKEY requested_world).2.1
    = [INFO "Hotkey ready: Ctrl+Alt+V";
       ERROR "Hotkey registration failed and rollback failed."].
Proof.
  pose proof (replace_outcomes requested_world 16387%Z 66%Z "Ctrl+Alt+B"
                eq_refl eq_refl eq_refl ltac:(discriminate)) as Hout.
  split_and!; [reflexivity..| |].
  - exact (proj1 (proj2 Hout)).
  - exact (proj2 (proj2 Hout)).
Defined.

(** * Properties of the rest of the store *)

Section StoreFacts.
Context `{PyBuiltins}.

Implicit Types (h l : list entry) (e x : entry).

Lemma trim_within_capacity h : within_capacity (_trim_history h).
Proof.
  unfold within_capacity. rewrite trim_unpinned, length_take. lia.
Qed.

Lemma trim_fixed h :
  pinned_first h → within_capacity h → _trim_history h = h.
Proof.
  intros Hpf Hcap. rewrite trim_eq, take_ge by exact Hcap. by symmetry.
Qed.

Lemma trim_trim h : _trim_history (_trim_history h) = _trim_history h.
Proof.
  apply trim_fixed; [apply trim_pinned_first|apply trim_within_capacity].
Qed.

(** X1. Trimming twice is trimming once, and a history that has its pinned
    entries first and at most [MAX_ITEMS] unpinned ones is left as it is. *)
Theorem trim_idempotent h :
  _trim_history (_trim_history h) = _trim_history h
  ∧ (pinned_first h → within_capacity h → _trim_history h = h).
Proof.
  split; [apply trim_trim|apply trim_fixed].
Qed.

Lemma trim_well_formed l : distinct_texts l → well_formed (_trim_history l).
Proof.
  intros Hnd. split_and!.
  - eapply distinct_submseteq; [apply trim_submseteq|done].
  - apply trim_pinned_first.
  - apply trim_within_capacity.
Qed.

Lemma add_well_formed now item h :
  distinct_texts h → well_formed (_add_to_history now item h).
Proof.
  intros Hnd. pose proof (add_distinct now item h Hnd) as Hnd'.
  destruct (add_is_trim now item h) as [l Hl]. rewrite Hl in *.
  split_and!; [done|apply trim_pinned_first|apply trim_within_capacity].
Qed.

Lemma toggle_well_formed item h :
  well_formed h → well_formed (toggle_pin_selected item h).
Proof.
  intros Hwf. destruct item as [x|]; [|done]. unfold toggle_pin_selected.
  apply trim_well_formed. destruct Hwf as (Hnd & _ & _).
  assert (Hins : ∀ i, distinct_texts
            (py_insert i (Entry (text x) (casefold (text x)) (ts x)
                            (negb (pinned x)))
               (filter (λ y, text y ≠ text x) h))).
  { intros i. unfold distinct_texts. rewrite py_insert_perm, fmap_cons. simpl.
    apply NoDup_cons. split; [apply not_in_texts_filter|].
    eapply (distinct_submseteq _ h); [|done].
    apply sublist_submseteq, sublist_filter. }
  destruct (negb (pinned x)); apply Hins.
Qed.

Lemma filter_well_formed (P : entry → Prop) `{!∀ x, Decision (P x)} h :
  well_formed h → well_formed (filter P h).
Proof.
  intros (Hnd & Hpf & Hcap). split_and!.
  - eapply distinct_submseteq; [apply sublist_submseteq, sublist_filter|done].
  - by apply pinned_first_filter.
  - unfold within_capacity in *. rewrite filter_comm.
    etrans; [apply length_filter|done].
Qed.

Lemma remove_well_formed item h :
  well_formed h → well_formed (remove_selected item h).
Proof.
  destruct item as [x|]; [|done]. apply filter_well_formed; apply _.
Qed.

Lemma nil_well_formed : well_formed [].
Proof. split_and!; [constructor|done|unfold within_capacity; simpl; lia]. Qed.

Lemma load_well_formed now file h :
  well_formed h → well_formed (_load_history now file h).
Proof.
  intros Hwf. unfold _load_history. destruct file as [data|]; [|done].
  destruct (load_items now data) as [items|]; [|done].
  apply trim_well_formed, dedupe_distinct.
Qed.

Lemma Forall_submseteq {A} (P : A → Prop) (l1 l2 : list A) :
  l1 ⊆+ l2 → Forall P l2 → Forall P l1.
Proof.
  intros Hsub Hall. apply Forall_forall. intros a Ha.
  apply (proj1 (Forall_forall _ _) Hall). by eapply elem_of_submseteq.
Qed.

Lemma load_dicts_built now data items :
  load_dicts now data = Some items → Forall built_entry items.
Proof.
  revert items. induction data as [|r data IH]; intros items Hload.
  - by simplify_eq/=.
  - destruct r as [| | | | |d]; simpl in Hload; eauto.
    case_bool_decide as Hempty; [eauto|].
    destruct (match dict_get "ts" d with
              | Some v => py_float v
              | None => Some now
              end) as [ts_|]; [|done].
    destruct (load_dicts now data) as [items'|]; [|done].
    simplify_eq/=. constructor; [|by apply IH].
    split; [|done]. split; [apply strip_idem|done].
Qed.

Lemma load_legacy_built now i data :
  Forall built_entry (load_legacy now i data).
Proof.
  revert i. induction data as [|r data IH]; intros i; [constructor|].
  destruct r as [| | |t| |]; simpl; auto.
  case_bool_decide as Hempty; [auto|].
  constructor; [|by apply IH]. split; [|done]. split; [apply strip_idem|done].
Qed.

Lemma load_items_built now data items :
  load_items now data = Some items → Forall built_entry items.
Proof.
  unfold load_items.
  destruct data as [| | | |l|]; try (intros [= <-]; constructor).
  destruct l as [|[| | | | |d] l']; [| | | | | |apply load_dicts_built];
    intros <-%(inj Some); apply load_legacy_built.
Qed.

Lemma load_built now file h :
  Forall built_entry h → Forall built_entry (_load_history now file h).
Proof.
  intros Hh. unfold _load_history. destruct file as [data|]; [|done].
  destruct (load_items now data) as [items|] eqn:Hload; [|done].
  eapply Forall_submseteq; [apply trim_submseteq|].
  eapply Forall_submseteq; [apply sublist_submseteq, dedupe_sublist|].
  by eapply load_items_built.
Qed.

Lemma add_built now item h :
  distinct_texts h → strip item = item → item ≠ "" →
  Forall built_entry h → Forall built_entry (_add_to_history now item h).
Proof.
  intros Hnd Hstrip Hne Hh. rewrite add_eq by done. cbv zeta.
  eapply Forall_submseteq; [apply trim_submseteq|].
  eapply Forall_submseteq; [apply Permutation_submseteq, py_insert_perm|].
  constructor; [done|].
  eapply Forall_submseteq; [apply sublist_submseteq, sublist_filter|done].
Qed.

Lemma toggle_built item h :
  (∀ e, item = Some e → e ∈ h) →
  Forall built_entry h → Forall built_entry (toggle_pin_selected item h).
Proof.
  intros Hin Hh. destruct item as [x|]; [|done]. unfold toggle_pin_selected.
  eapply Forall_submseteq; [apply trim_submseteq|].
  assert (Hx : built_entry x)
    by (apply (proj1 (Forall_forall _ _) Hh), Hin; done).
  assert (Hins : ∀ i, Forall built_entry
            (py_insert i (Entry (text x) (casefold (text x)) (ts x)
                            (negb (pinned x)))
               (filter (λ y, text y ≠ text x) h))).
  { intros i.
    eapply Forall_submseteq; [apply Permutation_submseteq, py_insert_perm|].
    constructor; [by destruct Hx as [[? ?] _]|].
    eapply Forall_submseteq; [apply sublist_submseteq, sublist_filter|done]. }
  destruct (negb (pinned x)); apply Hins.
Qed.

(** X2. Every history the program reaches has one entry per text, its
    pinned entries first and at most [MAX_ITEMS] unpinned entries, and each
    of its entries has a stripped, non-empty text and the fold key of that
    text. *)
Theorem reachable_invariants self :
  reachable self →
  well_formed (history self) ∧ Forall built_entry (history self).
Proof.
  induction 1 as [paused|now file self _ [Hwf Hb]|now clip self _ [Hwf Hb]
                 |item self _ [Hwf Hb] Hin|item self _ [Hwf Hb] Hin
                 |confirmed self _ [Hwf Hb]|self _ IH|proposed self _ IH].
  - split; [apply nil_well_formed|constructor].
  - simpl. split; [by apply load_well_formed|by apply load_built].
  - unfold _poll_clipboard.
    destruct (_get_clipboard_text clip) as [text_|]; [|done].
    case_bool_decide as Hne; [|done].
    destruct (monitoring_paused_var self); [done|].
    case_bool_decide; [|done]. simpl.
    split; [apply add_well_formed, Hwf|].
    apply add_built; [apply Hwf|apply strip_idem|done..].
  - simpl. split; [by apply toggle_well_formed|by apply toggle_built].
  - simpl. split; [by apply remove_well_formed|].
    destruct item as [x|]; [|done]. simpl.
    eapply Forall_submseteq; [apply sublist_submseteq, sublist_filter|done].
  - simpl. unfold clear_all. case_bool_decide; [done|].
    destruct confirmed; [|done].
    split; [apply nil_well_formed|constructor].
  - done.
  - unfold search_entry_edit, _validate_search. by case_decide.
Qed.

(** ** The saved file *)

Lemma load_dicts_payload now h :
  load_dicts now
    ((λ e, JDict [("text", JStr (text e)); ("ts", JNum (ts e));
                  ("pinned", JBool (pinned e))]) <$> h)
  = Some ((λ e, Entry (strip (text e)) (casefold (strip (text e))) (ts e)
                  (pinned e))
            <$> filter (λ e, strip (text e) ≠ "") h).
Proof.
  induction h as [|e h IH]; [done|].
  rewrite fmap_cons.
  change (load_dicts now (JDict ?d :: ?l))
    with (let txt := strip (text e) in
          if bool_decide (txt = "") then load_dicts now l
          else
            items ← load_dicts now l;
            Some (Entry txt (casefold txt) (ts e) (pinned e) :: items)).
  cbv zeta. rewrite IH. case_bool_decide as Hempty.
  - by rewrite filter_cons_False by (by intros Hne; apply Hne).
  - by rewrite filter_cons_True by done.
Qed.

Lemma load_items_payload now h :
  load_items now (save_payload h)
  = Some ((λ e, Entry (strip (text e)) (casefold (strip (text e))) (ts e)
                  (pinned e))
            <$> filter (λ e, strip (text e) ≠ "") h).
Proof.
  unfold save_payload, load_items. destruct h as [|e h]; [done|].
  exact (load_dicts_payload now (e :: h)).
Qed.

(** X3. What was saved always loads: the load is not abandoned, and it
    yields, before de-duplication and trimming, the saved entries whose text
    is not blank, each with its text stripped and its fold key derived
    again. *)
Theorem saved_payload_loads now h :
  load_items now (save_payload h)
  = Some ((λ e, Entry (strip (text e)) (casefold (strip (text e))) (ts e)
                  (pinned e))
            <$> filter (λ e, strip (text e) ≠ "") h).
Proof.
  unfold save_payload, load_items. destruct h as [|e h].
  - reflexivity.
  - exact (load_dicts_payload now (e :: h)).
Qed.

Lemma dedupe_fixed (seen : gset string) h :
  distinct_texts h →
  Forall (λ e, text e ≠ "" ∧ text e ∉ seen) h →
  dedupe seen h = h.
Proof.
  unfold distinct_texts. revert seen.
  induction h as [|e h IH]; intros seen Hnd Hall; [done|].
  rewrite fmap_cons in Hnd. apply NoDup_cons in Hnd as [He Hnd].
  apply Forall_cons in Hall as [[Hne Hns] Hall].
  simpl. rewrite bool_decide_false by tauto. f_equal.
  apply IH; [done|]. apply Forall_forall. intros x Hx.
  destruct (proj1 (Forall_forall _ _) Hall x Hx) as [? ?].
  split; [done|]. apply not_elem_of_union. split; [|done].
  apply not_elem_of_singleton. intros Heq. apply He. rewrite <- Heq.
  by apply list_elem_of_fmap_2.
Qed.

(** X4. Saving and loading gives the history back: for a history with the
    three invariants whose entries are as the program builds them, loading
    the saved payload yields that history, whatever the clock and the
    history held before. *)
Theorem save_load_round_trip now h h0 :
  well_formed h → Forall built_entry h →
  _load_history now (Some (save_payload h)) h0 = h.
Proof.
  intros (Hnd & Hpf & Hcap) Hb. unfold _load_history.
  rewrite load_items_payload.
  rewrite (filter_all _ h); cycle 1.
  { eapply Forall_impl; [exact Hb|]. intros e [[Hs Hne] _]. by rewrite Hs. }
  assert (Hid : (λ e, Entry (strip (text e)) (casefold (strip (text e)))
                        (ts e) (pinned e)) <$> h = h).
  { clear Hnd Hpf Hcap. induction Hb as [|e h [[Hs _] Hf] _ IH]; [done|].
    rewrite fmap_cons, IH. f_equal. rewrite Hs, <- Hf. by destruct e. }
  rewrite Hid, dedupe_fixed; [by apply trim_fixed|done|].
  eapply Forall_impl; [exact Hb|]. intros e [[_ Hne] _].
  split; [done|]. apply not_elem_of_empty.
Qed.

(** ** Captures, in closed form *)

Lemma add_pinned_eq now item h x :
  distinct_texts h → first_with_text item h = Some x → pinned x = true →
  _add_to_history now item h
  = Entry item (casefold item) now true
      :: _trim_history (filter (λ y, text y ≠ item) h).
Proof.
  intros Hnd Hx Hp. rewrite add_eq by done. cbv zeta. rewrite Hx. simpl.
  rewrite Hp, py_insert_0, !trim_eq.
  rewrite filter_cons_True by done.
  by rewrite filter_cons_False by (simpl; tauto).
Qed.

Lemma add_unpinned_eq now item h :
  distinct_texts h → pinned_first h →
  from_option pinned false (first_with_text item h) = false →
  _add_to_history now item h
  = filter (λ y, pinned y) (filter (λ y, text y ≠ item) h)
    ++ Entry item (casefold item) now false
    :: take (MAX_ITEMS - 1)
         (filter (λ y, ¬ pinned y) (filter (λ y, text y ≠ item) h)).
Proof.
  intros Hnd Hpf Hp. rewrite add_eq by done. cbv zeta. rewrite Hp.
  rewrite insert_at_pinned_count by by apply pinned_first_filter.
  rewrite trim_eq.
  match goal with |- context [?A ++ ?e :: ?B] =>
    destruct (filter_pinned_app A (e :: B)) as [-> ->]
  end.
  - apply Forall_filter_self.
  - apply Forall_cons; split; [simpl; tauto|apply Forall_filter_self].
  - done.
Qed.

Lemma first_with_text_absent item h :
  item ∉ text <$> h → first_with_text item h = None.
Proof.
  intros Hni. unfold first_with_text.
  destruct (list_find _ h) as [[i x]|] eqn:Hfind; [|done].
  apply list_find_Some in Hfind as (Hi & Hx & _). destruct Hni.
  rewrite <- Hx. eapply list_elem_of_fmap_2, list_elem_of_lookup_2, Hi.
Qed.

Lemma not_in_texts_trim item l :
  item ∉ text <$> l → item ∉ text <$> _trim_history l.
Proof.
  intros Hni (y & Hy & Hin)%list_elem_of_fmap. apply Hni. rewrite Hy.
  apply list_elem_of_fmap_2. eapply elem_of_submseteq; [exact Hin|].
  apply trim_submseteq.
Qed.

Lemma recapture_unpinned now1 now2 item h :
  distinct_texts h → pinned_first h →
  from_option pinned false (first_with_text item h) = false →
  _add_to_history now2 item (_add_to_history now1 item h)
  = _add_to_history now2 item h.
Proof.
  intros Hnd Hpf Hfalse.
  pose proof (add_well_formed now1 item h Hnd) as (Hnd1 & Hpf1 & _).
  rewrite (add_unpinned_eq now2 item h Hnd Hpf Hfalse).
  rewrite (add_unpinned_eq now1 item h Hnd Hpf Hfalse) in Hnd1, Hpf1 |- *.
  set (rest := filter (λ y, text y ≠ item) h) in *.
  set (P := filter (λ y, pinned y) rest) in *.
  set (T := take (MAX_ITEMS - 1) (filter (λ y, ¬ pinned y) rest)) in *.
  set (e1 := Entry item (casefold item) now1 false) in *.
  assert (HP : Forall (λ y, pinned y) P) by apply Forall_filter_self.
  assert (HT : Forall (λ y, ¬ pinned y) T)
    by apply Forall_take, Forall_filter_self.
  assert (HPi : item ∉ text <$> P).
  { intros (y & Hy & [_ Hin]%list_elem_of_filter)%list_elem_of_fmap.
    apply list_elem_of_filter in Hin as [Hne _]. congruence. }
  assert (HTi : item ∉ text <$> T).
  { intros (y & Hy & Hin)%list_elem_of_fmap.
    assert (y ∈ rest) as [Hne _]%list_elem_of_filter; [|congruence].
    eapply elem_of_sublist; [exact Hin|].
    etrans; [apply sublist_take|apply sublist_filter]. }
  assert (Hsel : first_with_text item (P ++ e1 :: T) = Some e1).
  { apply (first_with_text_distinct _ e1 Hnd1).
    apply elem_of_app. right. by left. }
  rewrite (add_unpinned_eq now2 item _ Hnd1 Hpf1) by (by rewrite Hsel).
  rewrite filter_app, filter_cons_False by (simpl; intros Hne; by apply Hne).
  rewrite (filter_absent item P HPi), (filter_absent item T HTi).
  destruct (filter_pinned_app P T HP HT) as [-> ->].
  do 2 f_equal. unfold T. by rewrite take_take, Nat.min_id.
Qed.

(** X5. On a history with one entry per text and the pinned entries first,
    capturing a text twice in a row leaves what capturing it once at the
    second time leaves: the second capture only refreshes the timestamp. *)
Theorem recapture_refreshes_timestamp now1 now2 item h :
  NoDup (text <$> h) → pinned_first h →
  _add_to_history now2 item (_add_to_history now1 item h)
  = _add_to_history now2 item h.
Proof.
  intros Hnd Hpf.
  pose proof (add_well_formed now1 item h Hnd) as (Hnd1 & Hpf1 & _).
  set (rest := filter (λ y, text y ≠ item) h).
  destruct (first_with_text item h) as [x|] eqn:Hx;
    [destruct (pinned x) eqn:Hp|].
  - rewrite (add_pinned_eq now2 item h x Hnd Hx Hp).
    rewrite (add_pinned_eq now1 item h x Hnd Hx Hp) in Hnd1 |- *.
    fold rest in Hnd1 |- *.
    erewrite (add_pinned_eq now2 item _ _ Hnd1); [|by
      unfold first_with_text; cbn; rewrite decide_True|done].
    rewrite filter_cons_False by (simpl; intros Hne; by apply Hne).
    rewrite filter_absent
      by (apply not_in_texts_trim, not_in_texts_filter).
    by rewrite trim_trim.
  - assert (Hfalse : from_option pinned false (first_with_text item h) = false)
      by (by rewrite Hx).
    apply (recapture_unpinned now1 now2 item h Hnd Hpf Hfalse).
  - assert (Hfalse : from_option pinned false (first_with_text item h) = false)
      by (by rewrite Hx).
    apply (recapture_unpinned now1 now2 item h Hnd Hpf Hfalse).
Qed.

Lemma add_new_eq now item h :
  distinct_texts h → pinned_first h → item ∉ text <$> h →
  _add_to_history now item h
  = filter (λ y, pinned y) h
    ++ Entry item (casefold item) now false
    :: take (MAX_ITEMS - 1) (filter (λ y, ¬ pinned y) h).
Proof.
  intros Hnd Hpf Hni.
  rewrite (add_unpinned_eq now item h Hnd Hpf)
    by (by rewrite first_with_text_absent).
  by rewrite (filter_absent item h Hni).
Qed.

(** X6. Capturing a text the history does not hold, while fewer than
    [MAX_ITEMS] entries are unpinned, loses nothing: the result is the new
    unpinned entry put between the pinned and the unpinned entries, and
    removing the entry with that text gives the former history back. *)
Theorem new_capture_below_capacity now item h e0 :
  NoDup (text <$> h) → pinned_first h → item ∉ text <$> h →
  length (filter (λ y, ¬ pinned y) h) < MAX_ITEMS →
  text e0 = item →
  _add_to_history now item h
  = filter (λ y, pinned y) h
    ++ Entry item (casefold item) now false :: filter (λ y, ¬ pinned y) h
  ∧ _add_to_history now item h ≡ₚ Entry item (casefold item) now false :: h
  ∧ remove_selected (Some e0) (_add_to_history now item h) = h.
Proof.
  intros Hnd Hpf Hni Hlen <-.
  rewrite (add_new_eq now (text e0) h Hnd Hpf Hni).
  rewrite take_ge by (unfold MAX_ITEMS in *; lia).
  split_and!; [done| |].
  - rewrite <- Permutation_middle. f_equiv. by rewrite <- Hpf.
  - simpl. rewrite filter_app.
    rewrite filter_cons_False by (simpl; intros Hne; by apply Hne).
    rewrite <- filter_app, <- Hpf. by apply filter_absent.
Qed.

(** X7. Capturing a text the history does not hold, while exactly
    [MAX_ITEMS] entries are unpinned, evicts the last unpinned entry and no
    other: every other entry of the history stays, behind the new one. *)
Theorem new_capture_at_capacity now item h :
  NoDup (text <$> h) → pinned_first h → item ∉ text <$> h →
  length (filter (λ y, ¬ pinned y) h) = MAX_ITEMS →
  ∃ t,
    last h = Some t ∧ ¬ pinned t
    ∧ (text t ∉ text <$> _add_to_history now item h)
    ∧ ∀ x, x ∈ h → x ≠ t → x ∈ _add_to_history now item h.
Proof.
  intros Hnd Hpf Hni Hlen.
  rewrite (add_new_eq now item h Hnd Hpf Hni).
  set (P := filter (λ y, pinned y) h) in *.
  set (U := filter (λ y, ¬ pinned y) h) in *.
  destruct (last U) as [t|] eqn:Hlast; cycle 1.
  { apply last_None in Hlast. rewrite Hlast in Hlen. discriminate. }
  apply last_Some in Hlast as [U' HU'].
  assert (HtU : t ∈ U) by (rewrite HU'; apply elem_of_app; right; by left).
  apply list_elem_of_filter in HtU as [Htp Hth].
  assert (HlenU' : length U' = MAX_ITEMS - 1).
  { rewrite HU', length_app in Hlen. simpl in Hlen.
    unfold MAX_ITEMS in *. lia. }
  rewrite HU', take_app_length' by done.
  exists t. split_and!.
  - rewrite Hpf. fold P U. rewrite HU', app_assoc. apply last_snoc.
  - done.
  - rewrite fmap_app, fmap_cons. simpl. rewrite elem_of_app, elem_of_cons.
    intros [Hx|[Hx|Hx]].
    + apply list_elem_of_fmap in Hx as (y & Hy & [Hyp Hyin]%list_elem_of_filter).
      apply Htp. by rewrite (distinct_inj h t y Hnd Hth Hyin Hy).
    + apply Hni. rewrite <- Hx. by apply list_elem_of_fmap_2.
    + assert (HndU : NoDup (text <$> U)).
      { eapply (distinct_submseteq U h); [|done].
        apply sublist_submseteq, sublist_filter. }
      rewrite HU', fmap_app in HndU.
      apply NoDup_app in HndU as (_ & Hdis & _).
      apply (Hdis _ Hx). simpl. by left.
  - intros x Hx Hxt. rewrite Hpf in Hx. fold P U in Hx.
    rewrite HU' in Hx. rewrite !elem_of_app in Hx.
    destruct Hx as [Hx|[Hx|Hx]].
    + apply elem_of_app. by left.
    + apply elem_of_app. right. by right.
    + apply list_elem_of_singleton in Hx. done.
Qed.

(** ** Removal and pinning *)

Lemma remove_perm h e :
  distinct_texts h → e ∈ h → h ≡ₚ e :: filter (λ y, text y ≠ text e) h.
Proof.
  unfold distinct_texts. intros Hnd Hin.
  induction h as [|a h IH]; [by apply elem_of_nil in Hin|].
  rewrite fmap_cons in Hnd. apply NoDup_cons in Hnd as [Ha Hnd].
  apply elem_of_cons in Hin as [->|Hin].
  - rewrite filter_cons_False by (intros Hne; by apply Hne).
    by rewrite filter_absent.
  - assert (Hne : text a ≠ text e).
    { intros Heq. apply Ha. rewrite Heq. by apply list_elem_of_fmap_2. }
    rewrite filter_cons_True by done.
    rewrite (IH Hnd Hin) at 1. apply perm_swap.
Qed.

(** X8. Removal takes out the selected entry and nothing else: on a
    history with one entry per text, the history is the removed entry
    together with what is left, no entry left has its text, and what is left
    keeps its order; removing a text the history does not hold, or with
    nothing selected, changes nothing. *)
Theorem remove_takes_one_entry h e :
  NoDup (text <$> h) →
  (e ∈ h →
   h ≡ₚ e :: remove_selected (Some e) h
   ∧ length (remove_selected (Some e) h) = pred (length h))
  ∧ (text e ∉ text <$> remove_selected (Some e) h)
  ∧ (remove_selected (Some e) h `sublist_of` h)
  ∧ (text e ∉ text <$> h → remove_selected (Some e) h = h)
  ∧ remove_selected None h = h.
Proof.
  intros Hnd. simpl. split_and!; [|apply not_in_texts_filter
    |apply sublist_filter|apply filter_absent|done].
  intros Hin. pose proof (remove_perm h e Hnd Hin) as Hperm.
  split; [done|]. rewrite Hperm at 2. done.
Qed.

Lemma trim_perm l : within_capacity l → _trim_history l ≡ₚ l.
Proof.
  intros Hcap. rewrite trim_eq, take_ge by exact Hcap.
  apply filter_app_complement.
Qed.

(** X9. A pin toggle that stays within the capacity loses nothing: when an
    unpinned entry is pinned, or a pinned one is unpinned while fewer than
    [MAX_ITEMS] entries are unpinned, the result holds the entry with its
    flag flipped and its text and timestamp kept, and every other entry of
    the history. *)
Theorem toggle_pin_keeps_entries h e :
  NoDup (text <$> h) → e ∈ h →
  length (filter (λ y, ¬ pinned y) h) + (if pinned e then 1 else 0)
  ≤ MAX_ITEMS →
  toggle_pin_selected (Some e) h
  ≡ₚ Entry (text e) (casefold (text e)) (ts e) (negb (pinned e))
     :: remove_selected (Some e) h
  ∧ length (toggle_pin_selected (Some e) h) = length h.
Proof.
  intros Hnd Hin Hlen.
  assert (Hperm : toggle_pin_selected (Some e) h
            ≡ₚ Entry (text e) (casefold (text e)) (ts e) (negb (pinned e))
               :: remove_selected (Some e) h).
  { unfold toggle_pin_selected, remove_selected.
    set (rest := filter (λ y, text y ≠ text e) h).
    set (e' := Entry (text e) (casefold (text e)) (ts e) (negb (pinned e))).
    assert (Hrest : length (filter (λ y, ¬ pinned y) rest)
                    ≤ length (filter (λ y, ¬ pinned y) h)).
    { unfold rest. rewrite filter_comm. apply length_filter. }
    assert (Hins : ∀ i, _trim_history (py_insert i e' rest) ≡ₚ e' :: rest).
    { intros i. rewrite trim_perm; [apply py_insert_perm|].
      unfold within_capacity. rewrite py_insert_perm.
      unfold e'. destruct (pinned e).
      - rewrite filter_cons_True by (simpl; tauto). simpl. lia.
      - rewrite filter_cons_False by (simpl; tauto). lia. }
    destruct (negb (pinned e)); apply Hins. }
  split; [done|]. rewrite Hperm. simpl.
  pose proof (remove_perm h e Hnd Hin) as Hh.
  apply Permutation_length in Hh. simpl in Hh. by rewrite Hh.
Qed.

(** ** The list box *)

Lemma first_with_text_lookup item l :
  (fst <$> list_find (λ x, text x = item) l) ≫= (l !!.)
  = first_with_text item l.
Proof.
  unfold first_with_text.
  destruct (list_find _ l) as [[i x]|] eqn:Hfind; [|done].
  by apply list_find_Some in Hfind as (Hi & _ & _).
Qed.

Lemma refresh_selection search_var h lb :
  _selected_history_item (_refresh_list search_var h lb)
  = match _selected_history_item lb with
    | Some e =>
        if bool_decide (text e ≠ "")
        then first_with_text (text e)
               (filtered_items (_refresh_list search_var h lb))
        else None
    | None => None
    end.
Proof.
  unfold _selected_history_item at 1. simpl.
  destruct (_selected_history_item lb) as [e|]; [|done]. simpl.
  case_bool_decide; [|done].
  rewrite <- first_with_text_lookup.
  by destruct (list_find _ _) as [[i x]|].
Qed.

(** X10. After a refresh the list box holds the entries of the history
    that match the query, in the order of the history, and the selected
    item is the first of them with the text that was selected before; the
    selection is empty when nothing was selected, when that text is empty,
    or when no row has it any more. *)
Theorem refresh_restores_selection search_var h lb :
  let lb' := _refresh_list search_var h lb in
  let q := casefold (strip search_var) in
  filtered_items lb' = filter (λ x, q = "" ∨ is_infix q (fold x)) h
  ∧ _selected_history_item lb'
    = match _selected_history_item lb with
      | Some e =>
          if bool_decide (text e ≠ "")
          then first_with_text (text e) (filtered_items lb')
          else None
      | None => None
      end.
Proof.
  simpl. split; [done|].
  unfold _selected_history_item at 1. simpl.
  destruct (_selected_history_item lb) as [e|]; [|done]. simpl.
  case_bool_decide; [|done].
  rewrite <- first_with_text_lookup.
  by destruct (list_find _ _) as [[i x]|].
Qed.

Lemma toggle_holds_flipped h e :
  well_formed h →
  Entry (text e) (casefold (text e)) (ts e) (negb (pinned e))
  ∈ toggle_pin_selected (Some e) h.
Proof.
  intros (_ & Hpf & _). destruct (pinned e) eqn:Hp.
  - rewrite (toggle_unpin_eq e h Hp Hpf). apply elem_of_app. right. by left.
  - rewrite (toggle_pin_eq e h Hp). by left.
Qed.

(** X11. After the Pin button the toggled entry stays selected: on a
    history with the three invariants, if the selected item has a non-empty
    text that the query shows, the item selected after the refresh is the
    entry with that text, its flag flipped and its timestamp kept, and it is
    the first entry of the new history with that text. *)
Theorem toggle_pin_keeps_selection search_var h lb e :
  well_formed h →
  _selected_history_item lb = Some e → text e ≠ "" →
  casefold (strip search_var) = ""
  ∨ is_infix (casefold (strip search_var)) (casefold (text e)) →
  let st' := toggle_pin_and_refresh search_var (h, lb) in
  let e' := Entry (text e) (casefold (text e)) (ts e) (negb (pinned e)) in
  st'.1 = toggle_pin_selected (Some e) h
  ∧ _selected_history_item st'.2 = Some e'
  ∧ first_with_text (text e) st'.1 = Some e'.
Proof.
  intros Hwf Hsel Hne Hq. unfold toggle_pin_and_refresh. cbv zeta.
  cbn [fst snd]. rewrite Hsel. cbn [fst snd]. split; [done|].
  set (h' := toggle_pin_selected (Some e) h).
  set (e' := Entry (text e) (casefold (text e)) (ts e) (negb (pinned e))).
  pose proof (toggle_well_formed (Some e) h Hwf) as (Hnd' & _ & _).
  pose proof (toggle_holds_flipped h e Hwf) as Hin'. fold h' e' in Hnd', Hin'.
  split; [|apply (first_with_text_distinct h' e' Hnd' Hin')].
  rewrite refresh_selection, Hsel, bool_decide_true by done.
  change (filtered_items (_refresh_list search_var h' lb))
    with (filter (λ x, casefold (strip search_var) = ""
                       ∨ is_infix (casefold (strip search_var)) (fold x)) h').
  apply (first_with_text_distinct _ e').
  - eapply distinct_submseteq; [apply sublist_submseteq, sublist_filter|done].
  - apply list_elem_of_filter. split; [exact Hq|done].
Qed.

(** X12. After the Remove button nothing is selected and no entry has the
    removed text; with no item selected, or a selected row past the end of
    the list, the Remove and Pin buttons change nothing. *)
Theorem remove_clears_selection search_var h lb :
  (∀ e, _selected_history_item lb = Some e →
     let st' := remove_and_refresh search_var (h, lb) in
     st'.1 = remove_selected (Some e) h
     ∧ (text e ∉ text <$> st'.1)
     ∧ curselection st'.2 = None)
  ∧ (_selected_history_item lb = None →
     remove_and_refresh search_var (h, lb) = (h, lb)
     ∧ toggle_pin_and_refresh search_var (h, lb) = (h, lb))
  ∧ (∀ idx, curselection lb = Some idx → length (filtered_items lb) ≤ idx →
     _selected_history_item lb = None).
Proof.
  split_and!.
  - intros e Hsel. unfold remove_and_refresh. simpl. rewrite Hsel. simpl.
    split; [done|]. split; [apply not_in_texts_filter|].
    rewrite Hsel. simpl. case_bool_decide; [|done].
    apply fmap_None, list_find_None, Forall_forall.
    intros x [_ [Hx _]%list_elem_of_filter]%list_elem_of_filter. done.
  - intros Hsel. unfold remove_and_refresh, toggle_pin_and_refresh. simpl.
    by rewrite Hsel.
  - intros idx Hidx Hlen. unfold _selected_history_item. rewrite Hidx.
    by apply lookup_ge_None.
Qed.

End StoreFacts.

(** * Properties of the hotkey listener *)

Lemma wndproc_consistent msg w :
  binding_consistent w → binding_consistent (wndproc msg w).2.
Proof.
  destruct w as [[id mods vk disp pm pv pd evs] [reg n g]].
  unfold binding_consistent. simpl. intros Hc.
  destruct msg as [wparam| | |]; simpl.
  - unfold mbind, Win_bind, get_self. simpl. by case_bool_decide.
  - unfold mbind, Win_bind, get_self. simpl.
    destruct pm as [new_mods|], pv as [new_vk|], pd as [new_disp|];
      simpl; try done.
    case_bool_decide; [done|]. simpl.
    unfold unregister_hotkey, register_hotkey. simpl.
    destruct (g n new_mods new_vk); simpl; [by right|].
    destruct (g (S n) mods vk); simpl; [by right|by left].
  - by left.
  - done.
Qed.

Lemma act_consistent w a : binding_consistent w → binding_consistent (act w a).
Proof.
  destruct a as [mods vk display|msg]; [|apply wndproc_consistent].
  by destruct w as [[id mods0 vk0 disp pm pv pd evs] [reg n g]].
Qed.

(** X13. Whatever the answers of [RegisterHotKey] and whatever requests and
    messages follow the start, the listener and the operating system agree:
    if a combination is registered, it is the one in the listener's
    [_mods] and [_vk]. *)
Theorem listener_knows_its_binding g actions :
  let w := listener_run g actions in
  registered w.2 = None ∨ registered w.2 = Some (_mods w.1, _vk w.1).
Proof.
  unfold listener_run.
  assert (Hstart : binding_consistent
            (_run_register (listener_init, User32 None 0 g)).2).
  { unfold binding_consistent, _run_register, mbind, Win_bind, get_self,
      register_hotkey. simpl.
    destruct (g 0 _ _); simpl; [by right|by left]. }
  revert Hstart. generalize (_run_register (listener_init, User32 None 0 g)).2.
  induction actions as [|a actions IH]; intros w Hw; [exact Hw|].
  simpl. apply IH. by apply act_consistent.
Qed.

(** X14. The window procedure never drops an event and queues at most one
    per message: a [WM_HOTKEY] queues one HOTKEY event when its identifier
    is the listener's and nothing otherwise, a replacement request one INFO
    or ERROR event when it is well formed, and the other messages
    nothing. *)
Theorem wndproc_queues_at_most_one msg w :
  ∃ evs,
    q (wndproc msg w).2.1 = q w.1 ++ evs
    ∧ length evs ≤ 1
    ∧ (∀ wparam, msg = WM_HOTKEY wparam →
         evs = if bool_decide (wparam = _hotkey_id w.1) then [HOTKEY] else [])
    ∧ (msg = WM_DESTROY ∨ msg = WM_OTHER → evs = []).
Proof.
  destruct w as [[id mods vk disp pm pv pd evs] [reg n g]].
  destruct msg as [wparam| | |]; simpl.
  - unfold mbind, Win_bind, get_self. simpl.
    exists (if bool_decide (wparam = id) then [HOTKEY] else []).
    case_bool_decide; simpl;
      (split_and!; [by rewrite ?app_nil_r|simpl; lia
                   |intros ? [= <-]; by rewrite ?bool_decide_true,
                      ?bool_decide_false by done
                   |by intros [?|?]]).
  - unfold mbind, Win_bind, get_self. simpl.
    assert (Hnone : ∃ evs0, evs = evs ++ evs0 ∧ length evs0 ≤ 1
              ∧ (∀ wparam, WM_APP_SET_HOTKEY = WM_HOTKEY wparam →
                   evs0 = if bool_decide (wparam = id) then [HOTKEY] else [])
              ∧ (WM_APP_SET_HOTKEY = WM_DESTROY
                 ∨ WM_APP_SET_HOTKEY = WM_OTHER → evs0 = [])).
    { exists []. split_and!; [by rewrite app_nil_r|simpl; lia|done
                             |by intros [?|?]]. }
    destruct pm as [new_mods|], pv as [new_vk|], pd as [new_disp|];
      simpl; try exact Hnone.
    case_bool_decide; [exact Hnone|]. simpl.
    unfold unregister_hotkey, register_hotkey. simpl.
    destruct (g n new_mods new_vk); simpl;
      [|destruct (g (S n) mods vk); simpl];
      (eexists [_]; split_and!; [done|simpl; lia|done|by intros [?|?]]).
  - exists []. split_and!; [by rewrite app_nil_r|simpl; lia|done|done].
  - exists []. split_and!; [by rewrite app_nil_r|simpl; lia|done|done].
Qed.

(** X15. A replacement message without a complete request (no modifiers, no
    key code, or no or an empty display string) changes nothing: the
    registered combination, the listener and the queue stay as they are.
    This is the case of a message that arrives before any request. *)
Theorem incomplete_request_is_ignored w :
  _pending_mods w.1 = None ∨ _pending_vk w.1 = None
  ∨ _pending_display w.1 = None ∨ _pending_display w.1 = Some "" →
  wndproc WM_APP_SET_HOTKEY w = (0%Z, w).
Proof.
  destruct w as [[id mods vk disp pm pv pd evs] [reg n g]]. simpl.
  unfold mbind, Win_bind, get_self. simpl.
  intros [->|[->|[->| ->]]]; simpl.
  - done.
  - by destruct pm.
  - by destruct pm, pv.
  - by destruct pm, pv.
Qed.

(** * Properties of the single-instance server *)

Lemma app_cons c s t : String c s +:+ t = String c (s +:+ t).
Proof. reflexivity. Qed.

Lemma app_empty_r s : s +:+ "" = s.
Proof. induction s as [|c s IH]; [done|]. by rewrite app_cons, IH. Qed.

Lemma app_assoc_str s t u : (s +:+ t) +:+ u = s +:+ t +:+ u.
Proof. induction s as [|c s IH]; [done|]. by rewrite !app_cons, IH. Qed.

Lemma prefix_app p x : String.prefix p x = true ↔ ∃ r, x = p +:+ r.
Proof.
  revert x. induction p as [|c p IH]; intros x.
  - split; [by exists x|by destruct x].
  - destruct x as [|d x]; simpl; [split; [done|by intros [r Hr]]|].
    destruct (Ascii.ascii_dec c d) as [->|Hne].
    + rewrite IH. split; intros [r Hr]; exists r.
      * by rewrite app_cons, Hr.
      * rewrite app_cons in Hr. by simplify_eq.
    + split; [done|]. intros [r Hr]. rewrite app_cons in Hr. by simplify_eq.
Qed.

Lemma bytes_upper_app s t :
  bytes_upper (s +:+ t) = bytes_upper s +:+ bytes_upper t.
Proof.
  induction s as [|c s IH]; [done|]. by rewrite !app_cons; simpl; rewrite IH.
Qed.

Lemma byte_upper_space c : bytes_isspace c = true → byte_upper c = c.
Proof. by destruct c as [[] [] [] [] [] [] [] []]. Qed.

Lemma bytes_lstrip_decomp s :
  ∃ ws, s = ws +:+ bytes_lstrip s ∧ all_space ws = true.
Proof.
  induction s as [|c s (ws & Hs & Hws)]; [by exists ""|]. simpl.
  destruct (bytes_isspace c) eqn:Hc; [|by exists ""].
  exists (String c ws). rewrite app_cons, <- Hs. simpl. by rewrite Hc, Hws.
Qed.

Lemma bytes_lstrip_skip ws s :
  all_space ws = true → bytes_lstrip (ws +:+ s) = bytes_lstrip s.
Proof.
  induction ws as [|c ws IH]; [done|]. simpl.
  intros [Hc Hws]%andb_prop. rewrite ?app_cons. simpl. rewrite Hc.
  by apply IH.
Qed.

Lemma bytes_rstrip_decomp s : ∃ t, s = bytes_rstrip s +:+ t.
Proof.
  induction s as [|c s [t Hs]]; [by exists ""|]. simpl.
  destruct (bytes_rstrip s) as [|d r] eqn:Hr.
  - destruct (bytes_isspace c); [by exists (String c s)|].
    exists t. by rewrite app_cons, <- Hs.
  - exists t. by rewrite app_cons, <- Hs.
Qed.

Lemma bytes_rstrip_keeps c s :
  bytes_isspace c = false →
  ∃ r, bytes_rstrip (String c s) = String c r ∧ bytes_rstrip s = r.
Proof.
  intros Hc. simpl. destruct (bytes_rstrip s); rewrite ?Hc; eauto.
Qed.

(** A word whose upper-case form is SHOW has no space in it, so the
    stripping keeps it at the front. *)
Lemma show_word_stays w rest :
  bytes_upper w = "SHOW" →
  ∃ r, bytes_strip (w +:+ rest) = w +:+ r.
Proof.
  intros Hw.
  destruct w as [|c1 [|c2 [|c3 [|c4 [|c5 w]]]]]; try discriminate.
  simpl in Hw. injection Hw as H1 H2 H3 H4.
  assert (Hns : ∀ c x, byte_upper c = x → bytes_isspace x = false →
                       bytes_isspace c = false).
  { intros c x Hcx Hx. destruct (bytes_isspace c) eqn:Hc; [|done].
    rewrite (byte_upper_space c Hc) in Hcx. congruence. }
  pose proof (Hns _ _ H1 eq_refl) as N1. pose proof (Hns _ _ H2 eq_refl) as N2.
  pose proof (Hns _ _ H3 eq_refl) as N3. pose proof (Hns _ _ H4 eq_refl) as N4.
  unfold bytes_strip. rewrite !app_cons. cbn [bytes_lstrip]. rewrite N1.
  destruct (bytes_rstrip_keeps c4 ("" +:+ rest) N4) as (r4 & E4 & _).
  destruct (bytes_rstrip_keeps c3 (String c4 ("" +:+ rest)) N3) as (r3 & E3 & F3).
  destruct (bytes_rstrip_keeps c2 (String c3 (String c4 ("" +:+ rest))) N2)
    as (r2 & E2 & F2).
  destruct (bytes_rstrip_keeps c1
              (String c2 (String c3 (String c4 ("" +:+ rest)))) N1)
    as (r1 & E1 & F1).
  exists r4. rewrite E1, <- F1, E2, <- F2, E3, <- F3, E4. done.
Qed.

(** X16. The server takes a payload for a show request exactly when it is
    made of white space, then the word SHOW in any mix of upper and lower
    case, then anything: the request of a second launch is one, and so is
    any payload that only differs from it in case, in leading white space or
    in what follows the word. *)
Theorem show_request_recognised data :
  (is_show data = true
   ↔ ∃ ws w rest,
       data = ws +:+ w +:+ rest
       ∧ all_space ws = true ∧ bytes_upper w = "SHOW")
  ∧ is_show show_request = true.
Proof.
  split; [|done]. unfold is_show. split.
  - intros [r Hr]%prefix_app.
    destruct (bytes_lstrip_decomp data) as (ws & Hdata & Hws).
    destruct (bytes_rstrip_decomp (bytes_lstrip data)) as [t Ht].
    fold (bytes_strip data) in Ht.
    destruct (bytes_strip data) as [|c1 [|c2 [|c3 [|c4 x]]]];
      try discriminate.
    exists ws, (String c1 (String c2 (String c3 (String c4 "")))), (x +:+ t).
    split_and!; [|done|].
    + rewrite Hdata at 1. by rewrite Ht.
    + simpl in Hr.
      change ("SHOW" +:+ r)
        with (String "S" (String "H" (String "O" (String "W" r)))) in Hr.
      injection Hr as H1 H2 H3 H4 _. simpl. by rewrite H1, H2, H3, H4.
  - intros (ws & w & rest & -> & Hws & Hw).
    apply prefix_app. unfold bytes_strip.
    rewrite (bytes_lstrip_skip ws _ Hws).
    destruct (show_word_stays w rest Hw) as [r Hr].
    assert (Hl : bytes_lstrip (w +:+ rest) = w +:+ rest).
    { destruct w as [|c w]; [discriminate|]. rewrite app_cons. simpl.
      destruct (bytes_isspace c) eqn:Hc; [|done].
      simpl in Hw. rewrite (byte_upper_space c Hc) in Hw.
      injection Hw as -> _. discriminate. }
    unfold bytes_strip in Hr. rewrite Hl in Hr |- *. rewrite Hr.
    exists (bytes_upper r). by rewrite bytes_upper_app, Hw.
Qed.

(** X17. Over any turns of the accept loop, timeouts change nothing and
    nothing is served after [accept] fails; each connection served before
    adds one SHOW event when its payload is a show request and none
    otherwise, whether or not the reply could be sent, and gets one reply
    slot, which holds OK unless reading or sending failed. *)
Theorem run_queues_one_show_per_request turns queue :
  let conns := served turns in
  (_run turns queue).1
  = queue ++ replicate (length (filter (λ conn, asks_show conn) conns)) SHOW
  ∧ (_run turns queue).2
    = (λ conn, match recv conn with
               | Some _ => if sendall_raises conn then None else Some ok_reply
               | None => None
               end) <$> conns.
Proof.
  simpl. revert queue.
  induction turns as [|[conn| |] turns IH]; intros queue; simpl.
  - by rewrite app_nil_r.
  - unfold serve.
    destruct conn as [[data|] fails]; simpl.
    + destruct (is_show data) eqn:Hshow.
      * rewrite filter_cons_True by (unfold asks_show; simpl; by rewrite Hshow).
        simpl.
        destruct (_run turns (queue ++ [SHOW])) as [q1 r1] eqn:Hrun.
        destruct (IH (queue ++ [SHOW])) as [Hq Hr]. rewrite Hrun in Hq, Hr.
        simpl in *. subst. split; [|done].
        by rewrite <- app_assoc.
      * rewrite filter_cons_False
          by (unfold asks_show; simpl; rewrite Hshow; by intros []).
        destruct (_run turns queue) as [q1 r1] eqn:Hrun.
        destruct (IH queue) as [Hq Hr]. rewrite Hrun in Hq, Hr.
        simpl in *. by subst.
    + rewrite filter_cons_False by (by intros []).
      destruct (_run turns queue) as [q1 r1] eqn:Hrun.
      destruct (IH queue) as [Hq Hr]. rewrite Hrun in Hq, Hr.
      simpl in *. by subst.
  - apply IH.
  - by rewrite app_nil_r.
Qed.

(** * Properties of the hotkey settings *)

Section HotkeyFacts.
Context `{PyBuiltins} `{PyText}.

(** X18. Saved settings load back: whatever the settings held before, the
    load gives every saved field its saved value and derives the display
    string from them; settings whose display string is the derived one come
    back unchanged. *)
Theorem settings_round_trip darwin self self0 :
  same_choice (_load_settings darwin (Some (settings_payload self)) self0) self
  ∧ (hk_display self
     = _format_hotkey_display darwin (hk_ctrl self) (hk_alt self)
         (hk_shift self) (hk_win self) (hk_key self) →
     _load_settings darwin (Some (settings_payload self)) self0 = self).
Proof.
  destruct self as [c a s w k d p]. split; [by repeat split|].
  simpl. intros ->. reflexivity.
Qed.

(** X19. A settings file that cannot be used changes no choice: when the
    file is missing or unreadable, when its content is no dict, or when its
    hotkey entry is no dict, the hotkey fields and the pause flag keep their
    values, also if the file holds a pause flag.  When the hotkey entry is
    missing, the hotkey fields keep their values and the pause flag is read,
    false if absent.  The display string is derived from the fields in
    every case. *)
Theorem unusable_settings_change_nothing darwin file self :
  let self' := _load_settings darwin file self in
  ((∀ s, file ≠ Some (JDict s)) → same_choice self' self)
  ∧ (∀ s hk, file = Some (JDict s) → dict_get "hotkey" s = Some hk →
       (∀ d, hk ≠ JDict d) → same_choice self' self)
  ∧ (∀ s, file = Some (JDict s) → dict_get "hotkey" s = None →
       hk_ctrl self' = hk_ctrl self ∧ hk_alt self' = hk_alt self
       ∧ hk_shift self' = hk_shift self ∧ hk_win self' = hk_win self
       ∧ hk_key self' = hk_key self
       ∧ monitoring_paused self'
         = py_bool (default (JBool false) (dict_get "monitoring_paused" s)))
  ∧ hk_display self'
    = _format_hotkey_display darwin (hk_ctrl self') (hk_alt self')
        (hk_shift self') (hk_win self') (hk_key self').
Proof.
  simpl. split_and!.
  - intros Hno. unfold _load_settings.
    destruct file as [[| | | | |s]|]; try by repeat split.
    by destruct (Hno s).
  - intros s hk -> Hhk Hnd. unfold _load_settings. rewrite Hhk. simpl.
    destruct hk as [| | | | |d]; try by repeat split.
    by destruct (Hnd d).
  - intros s -> Hhk. unfold _load_settings. rewrite Hhk. simpl.
    by repeat split.
  - done.
Qed.

Lemma upper_letter_range c :
  String.leb "A" (String c "") && String.leb (String c "") "Z" = true →
  (65 ≤ Z.of_nat (nat_of_ascii c) ≤ 90)%Z.
Proof.
  destruct c as [[] [] [] [] [] [] [] []]; vm_compute;
    first [by intros [=]|intros _; split; by intros [=]].
Qed.

Lemma digit_range c :
  String.leb "0" (String c "") && String.leb (String c "") "9" = true →
  (48 ≤ Z.of_nat (nat_of_ascii c) ≤ 57)%Z.
Proof.
  destruct c as [[] [] [] [] [] [] [] []]; vm_compute;
    first [by intros [=]|intros _; split; by intros [=]].
Qed.

(** X20. Whatever the key text, a virtual-key code that [_key_to_vk]
    returns is the code of a digit, of an upper-case letter, of one of F1
    to F24, or of space, return, tab or escape. *)
Theorem key_code_range key vk :
  _key_to_vk key = Returned (Some vk) →
  (48 ≤ vk ≤ 57 ∨ 65 ≤ vk ≤ 90 ∨ 0x70 ≤ vk ≤ 0x87
   ∨ vk = 0x20 ∨ vk = 0x0D ∨ vk = 0x09 ∨ vk = 0x1B)%Z.
Proof.
  unfold _key_to_vk.
  destruct (bool_decide (String.length (strip key) = 1)
            && ((String.leb "A" (upper (strip key))
                 && String.leb (upper (strip key)) "Z")
                || (String.leb "0" (upper (strip key))
                    && String.leb (upper (strip key)) "9"))) eqn:Hone.
  - apply andb_prop in Hone as [_ Hrange].
    destruct (upper (strip key)) as [|c [|d ch]]; simpl; try discriminate.
    intros [= <-]. apply orb_prop in Hrange as [Hr|Hr].
    + right. left. by apply upper_letter_range.
    + left. by apply digit_range.
  - destruct (String.prefix "F" (upper (strip key))).
    + destruct (int_of_str (from_1 (strip key))) as [n|].
      * destruct (bool_decide (1 ≤ n ≤ 24)%Z) eqn:Hn; cbv iota.
        -- apply bool_decide_eq_true in Hn.
           intros [= <-]. right. right. left. lia.
        -- intros [= Hmap]. revert Hmap. unfold vk_mapping.
           repeat case_bool_decide; intros [= <-]; tauto.
      * cbv iota. intros [= Hmap]. revert Hmap. unfold vk_mapping.
        repeat case_bool_decide; intros [= <-]; tauto.
    + cbv iota. intros [= Hmap]. revert Hmap. unfold vk_mapping.
      repeat case_bool_decide; intros [= <-]; tauto.
Qed.

(** X21. The modifier word of [_hotkey_to_win32] can be read back: bit 1 is
    Ctrl, bit 0 Alt, bit 2 Shift, bit 3 Win, the no-repeat bit 14 is always
    set and no other bit is; the key code beside it is the one
    [_key_to_vk] returns. *)
Theorem modifier_word_decodes ctrl alt shift win key mods vk :
  _hotkey_to_win32 ctrl alt shift win key = Returned (mods, vk) →
  Z.testbit mods 1 = ctrl ∧ Z.testbit mods 0 = alt
  ∧ Z.testbit mods 2 = shift ∧ Z.testbit mods 3 = win
  ∧ Z.testbit mods 14 = true
  ∧ Z.land mods (Z.lnot 0x400F) = 0%Z
  ∧ _key_to_vk key = Returned vk.
Proof.
  unfold _hotkey_to_win32. destruct (_key_to_vk key) as [vk'|]; [|done].
  intros [= <- <-]. by destruct ctrl, alt, shift, win.
Qed.

(** X22. With [upper] acting on ASCII texts as it does in Python and
    [int] reading the decimal numerals 1 to 24, every ASCII letter and digit
    is accepted, in either case, with the code of its upper-case form, and
    F1 to F24, written with a capital or a small f, with the codes 0x70 to
    0x87 in order. *)
Theorem ascii_keys_accepted :
  (∀ s, is_ascii s = true → upper s = bytes_upper s) →
  (∀ n : nat, 1 ≤ n ≤ 24 → int_of_str (pretty n) = Some (Z.of_nat n)) →
  (∀ c, is_alnum c = true →
     _key_to_vk (String c "")
     = Returned (Some (Z.of_nat (nat_of_ascii (byte_upper c)))))
  ∧ (∀ n : nat, 1 ≤ n ≤ 24 →
       _key_to_vk ("F" +:+ pretty n)
       = Returned (Some (0x70 + (Z.of_nat n - 1))%Z)
       ∧ _key_to_vk ("f" +:+ pretty n)
         = Returned (Some (0x70 + (Z.of_nat n - 1))%Z)).
Proof.
  intros Hupper Hint. split.
  - intros c Hc.
    destruct c as [[] [] [] [] [] [] [] []]; try (by vm_compute in Hc);
      unfold _key_to_vk; rewrite (Hupper (strip _)) by reflexivity;
      reflexivity.
  - intros n Hn. destruct n as [|n]; [lia|].
    do 24 (destruct n as [|n];
           [clear Hn;
            match goal with |- context [pretty ?k] =>
              pose proof (Hint k ltac:(lia)) as Hk
            end;
            vm_compute in Hk; unfold _key_to_vk;
            rewrite !(Hupper (strip _)) by reflexivity;
            split; vm_compute; rewrite Hk; reflexivity|]).
    lia.
Qed.

End HotkeyFacts.

(** * Properties of runs of the watcher *)

Section RunFacts.
Context `{PyBuiltins}.

(** X23. A clipboard that has not changed is not captured again: polling
    the same clipboard content a second time, at whatever time, leaves the
    manager as the first poll left it, paused or not. *)
Theorem unchanged_clipboard_polls_once now1 now2 clip self :
  _poll_clipboard now2 clip (_poll_clipboard now1 clip self)
  = _poll_clipboard now1 clip self.
Proof.
  unfold _poll_clipboard.
  destruct (_get_clipboard_text clip) as [text_|]; [|done].
  case_bool_decide as Hne; [|done].
  destruct self as [h lc paused sv sw b]. simpl.
  destruct paused; simpl; [done|].
  case_bool_decide as Hnew; simpl.
  - by rewrite bool_decide_false by (by intros Hd; apply Hd).
  - by rewrite bool_decide_false by (by intros Hd; apply Hd).
Qed.

Lemma add_keeps_pinned now item h x :
  distinct_texts h → x ∈ h → pinned x →
  ∃ x', x' ∈ _add_to_history now item h ∧ text x' = text x ∧ pinned x'.
Proof.
  intros Hnd Hin Hp. destruct (decide (text x = item)) as [<-|Hne].
  - rewrite (add_pinned_eq now (text x) h x Hnd
               (first_with_text_distinct h x Hnd Hin))
      by (by destruct (pinned x)).
    eexists. split; [by left|done].
  - exists x. split; [|done]. rewrite add_eq by done. cbv zeta.
    rewrite trim_eq. apply elem_of_app. left.
    apply list_elem_of_filter. split; [done|].
    rewrite py_insert_perm. right. by apply list_elem_of_filter.
Qed.

(** X24. A pinned text survives every run of captures: on a history with
    one entry per text, whatever is captured afterwards and however often,
    the history still holds a pinned entry with that text. *)
Theorem pinned_text_survives_captures cs h x :
  NoDup (text <$> h) → x ∈ h → pinned x = true →
  ∃ x', x' ∈ captures cs h ∧ text x' = text x ∧ pinned x' = true.
Proof.
  unfold captures. revert h x.
  induction cs as [|[now item] cs IH]; intros h x Hnd Hin Hp; simpl.
  - by exists x.
  - destruct (add_keeps_pinned now item h x Hnd Hin) as (x1 & Hin1 & Ht1 & Hp1);
      [by rewrite Hp|].
    destruct (IH _ x1 (add_distinct now item h Hnd) Hin1) as (x' & ? & ? & ?);
      [by destruct (pinned x1)|].
    exists x'. split_and!; [done|congruence|done].
Qed.

End RunFacts.

(** * The further theorems at concrete inputs *)

Lemma two_entries_pinned_first : pinned_first two_entries.
Proof. reflexivity. Defined.

Lemma two_entries_within_capacity : within_capacity two_entries.
Proof. unfold within_capacity. vm_compute. lia. Defined.

Lemma two_entries_well_formed : well_formed two_entries.
Proof.
  split; [exact two_entries_distinct|].
  split; [exact two_entries_pinned_first|exact two_entries_within_capacity].
Defined.

Lemma two_entries_built : Forall (@built_entry ascii_builtins) two_entries.
Proof. repeat constructor; by vm_compute. Defined.

Lemma full_history_distinct : NoDup (text <$> full_history).
Proof. apply (bool_decide_unpack _). vm_compute. exact I. Defined.

Lemma trim_idempotent_witness :
  pinned_first two_entries ∧ within_capacity two_entries
  ∧ _trim_history two_entries = two_entries.
Proof.
  split; [exact two_entries_pinned_first|].
  split; [exact two_entries_within_capacity|].
  exact (proj2 (trim_idempotent two_entries) two_entries_pinned_first
           two_entries_within_capacity).
Defined.

Lemma reachable_invariants_witness :
  let self := @_poll_clipboard ascii_builtins 5 (ClipStr " Hello ")
                (Manager [] None false "" "" 0) in
  @reachable ascii_builtins self
  ∧ well_formed (history self)
  ∧ Forall (@built_entry ascii_builtins) (history self).
Proof.
  intros self.
  assert (Hreach : @reachable ascii_builtins self)
    by (apply reach_poll, reach_init).
  split; [exact Hreach|].
  exact (@reachable_invariants ascii_builtins self Hreach).
Defined.

Lemma save_load_round_trip_witness :
  well_formed two_entries
  ∧ Forall (@built_entry ascii_builtins) two_entries
  ∧ @_load_history ascii_builtins 9 (Some (save_payload two_entries)) []
    = two_entries.
Proof.
  split; [exact two_entries_well_formed|].
  split; [exact two_entries_built|].
  exact (@save_load_round_trip ascii_builtins 9 two_entries []
           two_entries_well_formed two_entries_built).
Defined.

Lemma recapture_refreshes_timestamp_witness :
  NoDup (text <$> two_entries) ∧ pinned_first two_entries
  ∧ @_add_to_history ascii_builtins 4 "alpha"
      (@_add_to_history ascii_builtins 3 "alpha" two_entries)
    = @_add_to_history ascii_builtins 4 "alpha" two_entries.
Proof.
  split; [exact two_entries_distinct|].
  split; [exact two_entries_pinned_first|].
  exact (@recapture_refreshes_timestamp ascii_builtins 3 4 "alpha" two_entries
           two_entries_distinct two_entries_pinned_first).
Defined.

Lemma new_capture_below_capacity_witness :
  ("gamma" ∉ text <$> two_entries)
  ∧ length (filter (λ y, ¬ pinned y) two_entries) < MAX_ITEMS
  ∧ @_add_to_history ascii_builtins 7 "gamma" two_entries
    = [beta_entry; Entry "gamma" "gamma" 7 false; alpha_entry]
  ∧ remove_selected (Some (Entry "gamma" "gamma" 7 false))
      (@_add_to_history ascii_builtins 7 "gamma" two_entries)
    = two_entries.
Proof.
  assert (Hnew : "gamma" ∉ text <$> two_entries)
    by (apply (bool_decide_unpack _); vm_compute; exact I).
  assert (Hlen : length (filter (λ y, ¬ pinned y) two_entries) < MAX_ITEMS)
    by (vm_compute; lia).
  pose proof (@new_capture_below_capacity ascii_builtins 7 "gamma" two_entries
                (Entry "gamma" "gamma" 7 false) two_entries_distinct
                two_entries_pinned_first Hnew Hlen eq_refl)
    as (Heq & _ & Hback).
  split; [exact Hnew|]. split; [exact Hlen|]. split; [exact Heq|exact Hback].
Defined.

Lemma new_capture_at_capacity_witness :
  pinned_first full_history
  ∧ ("new" ∉ text <$> full_history)
  ∧ length (filter (λ y, ¬ pinned y) full_history) = MAX_ITEMS
  ∧ ∃ t,
      last full_history = Some t ∧ ¬ pinned t
      ∧ (text t ∉ text <$> @_add_to_history ascii_builtins 7 "new" full_history)
      ∧ ∀ x, x ∈ full_history → x ≠ t →
             x ∈ @_add_to_history ascii_builtins 7 "new" full_history.
Proof.
  assert (Hpf : pinned_first full_history) by (vm_compute; reflexivity).
  assert (Hnew : "new" ∉ text <$> full_history)
    by (apply (bool_decide_unpack _); vm_compute; exact I).
  assert (Hlen : length (filter (λ y, ¬ pinned y) full_history) = MAX_ITEMS)
    by (vm_compute; reflexivity).
  split; [exact Hpf|]. split; [exact Hnew|]. split; [exact Hlen|].
  exact (@new_capture_at_capacity ascii_builtins 7 "new" full_history
           full_history_distinct Hpf Hnew Hlen).
Defined.

Lemma remove_takes_one_entry_witness :
  NoDup (text <$> two_entries) ∧ beta_entry ∈ two_entries
  ∧ two_entries ≡ₚ beta_entry :: remove_selected (Some beta_entry) two_entries
  ∧ length (remove_selected (Some beta_entry) two_entries) = 1.
Proof.
  assert (Hin : beta_entry ∈ two_entries) by (by left).
  pose proof (remove_takes_one_entry two_entries beta_entry
                two_entries_distinct) as (Hone & _).
  split; [exact two_entries_distinct|]. split; [exact Hin|].
  exact (Hone Hin).
Defined.

Lemma toggle_pin_keeps_entries_witness :
  alpha_entry ∈ two_entries
  ∧ length (filter (λ y, ¬ pinned y) two_entries)
    + (if pinned alpha_entry then 1 else 0) ≤ MAX_ITEMS
  ∧ @toggle_pin_selected ascii_builtins (Some alpha_entry) two_entries
    ≡ₚ Entry "alpha" "alpha" 2 true
       :: remove_selected (Some alpha_entry) two_entries
  ∧ length (@toggle_pin_selected ascii_builtins (Some alpha_entry) two_entries)
    = 2.
Proof.
  assert (Hin : alpha_entry ∈ two_entries) by (right; left).
  assert (Hlen : length (filter (λ y, ¬ pinned y) two_entries)
                 + (if pinned alpha_entry then 1 else 0) ≤ MAX_ITEMS)
    by (vm_compute; lia).
  split; [exact Hin|]. split; [exact Hlen|].
  exact (@toggle_pin_keeps_entries ascii_builtins two_entries alpha_entry
           two_entries_distinct Hin Hlen).
Defined.

Lemma toggle_pin_keeps_selection_witness :
  _selected_history_item alpha_selected = Some alpha_entry
  ∧ _selected_history_item
      (@toggle_pin_and_refresh ascii_builtins ""
         (two_entries, alpha_selected)).2
    = Some (Entry "alpha" "alpha" 2 true)
  ∧ first_with_text "alpha"
      (@toggle_pin_and_refresh ascii_builtins ""
         (two_entries, alpha_selected)).1
    = Some (Entry "alpha" "alpha" 2 true).
Proof.
  assert (Hsel : _selected_history_item alpha_selected = Some alpha_entry)
    by reflexivity.
  pose proof (@toggle_pin_keeps_selection ascii_builtins "" two_entries
                alpha_selected alpha_entry two_entries_well_formed Hsel
                ltac:(discriminate) (or_introl eq_refl))
    as (_ & Hitem & Hfirst).
  split; [exact Hsel|]. split; [exact Hitem|exact Hfirst].
Defined.

Lemma remove_clears_selection_witness :
  _selected_history_item alpha_selected = Some alpha_entry
  ∧ (@remove_and_refresh ascii_builtins "" (two_entries, alpha_selected)).1
    = [beta_entry]
  ∧ curselection
      (@remove_and_refresh ascii_builtins "" (two_entries, alpha_selected)).2
    = None.
Proof.
  assert (Hsel : _selected_history_item alpha_selected = Some alpha_entry)
    by reflexivity.
  pose proof (@remove_clears_selection ascii_builtins "" two_entries
                alpha_selected) as (Hrem & _).
  destruct (Hrem alpha_entry Hsel) as (Hh & _ & Hnone).
  split; [exact Hsel|]. split; [exact Hh|exact Hnone].
Defined.

Lemma wndproc_queues_at_most_one_witness :
  q (wndproc (WM_HOTKEY 1) started_world).2.1
  = q started_world.1 ++ [HOTKEY].
Proof.
  destruct (wndproc_queues_at_most_one (WM_HOTKEY 1) started_world)
    as (evs & Hq & _ & Hhot & _).
  rewrite Hq, (Hhot 1%Z eq_refl). reflexivity.
Defined.

Lemma incomplete_request_is_ignored_witness :
  _pending_mods started_world.1 = None
  ∧ wndproc WM_APP_SET_HOTKEY started_world = (0%Z, started_world).
Proof.
  split; [reflexivity|].
  exact (incomplete_request_is_ignored started_world (or_introl eq_refl)).
Defined.

Lemma show_request_recognised_witness :
  all_space " " = true ∧ bytes_upper "sHoW" = "SHOW"
  ∧ is_show (" " +:+ "sHoW" +:+ newline) = true.
Proof.
  split; [reflexivity|]. split; [reflexivity|].
  apply (proj2 (proj1 (show_request_recognised
                         (" " +:+ "sHoW" +:+ newline)))).
  exists " ", "sHoW", newline. by split_and!.
Defined.

Lemma settings_round_trip_witness :
  hk_display default_settings
  = @_format_hotkey_display ascii_text false true true false false "v"
  ∧ @_load_settings ascii_builtins ascii_text false
      (Some (settings_payload default_settings))
      (Settings false false true true "F5" "" false)
    = default_settings.
Proof.
  split; [reflexivity|].
  exact (proj2 (@settings_round_trip ascii_builtins ascii_text false
                  default_settings (Settings false false true true "F5" ""
                                      false)) eq_refl).
Defined.

Lemma unusable_settings_change_nothing_witness :
  dict_get "hotkey" [("hotkey", JNum 5); ("monitoring_paused", JBool false)]
  = Some (JNum 5)
  ∧ same_choice
      (@_load_settings ascii_builtins ascii_text false
         (Some broken_settings_file) default_settings)
      default_settings
  ∧ same_choice
      (@_load_settings ascii_builtins ascii_text false None default_settings)
      default_settings.
Proof.
  split; [reflexivity|].
  pose proof (@unusable_settings_change_nothing ascii_builtins ascii_text
                false (Some broken_settings_file) default_settings)
    as (_ & Hbroken & _).
  pose proof (@unusable_settings_change_nothing ascii_builtins ascii_text
                false None default_settings) as (Hmissing & _).
  split.
  - exact (Hbroken _ (JNum 5) eq_refl eq_refl ltac:(discriminate)).
  - exact (Hmissing ltac:(discriminate)).
Defined.

Lemma key_code_range_witness :
  @_key_to_vk ascii_text " v " = Returned (Some 86%Z)
  ∧ (48 ≤ 86 ≤ 57 ∨ 65 ≤ 86 ≤ 90 ∨ 0x70 ≤ 86 ≤ 0x87
     ∨ 86 = 0x20 ∨ 86 = 0x0D ∨ 86 = 0x09 ∨ 86 = 0x1B)%Z.
Proof.
  split; [reflexivity|].
  exact (@key_code_range ascii_text " v " 86%Z eq_refl).
Defined.

Lemma modifier_word_decodes_witness :
  @_hotkey_to_win32 ascii_text true true false false "v"
  = Returned (16387%Z, Some 86%Z)
  ∧ Z.testbit 16387 1 = true ∧ Z.testbit 16387 0 = true
  ∧ Z.testbit 16387 2 = false ∧ Z.testbit 16387 3 = false
  ∧ Z.testbit 16387 14 = true
  ∧ Z.land 16387 (Z.lnot 0x400F) = 0%Z
  ∧ @_key_to_vk ascii_text "v" = Returned (Some 86%Z).
Proof.
  split; [reflexivity|].
  exact (@modifier_word_decodes ascii_text true true false false "v"
           16387%Z (Some 86%Z) eq_refl).
Defined.

Lemma ascii_text_upper s :
  is_ascii s = true → @upper ascii_text s = bytes_upper s.
Proof. reflexivity. Defined.

Lemma ascii_text_int (n : nat) :
  1 ≤ n ≤ 24 → @int_of_str ascii_text (pretty n) = Some (Z.of_nat n).
Proof.
  intros Hn. destruct n as [|n]; [exfalso; lia|].
  do 24 (destruct n as [|n]; [reflexivity|]). exfalso. lia.
Defined.

Lemma ascii_keys_accepted_witness :
  @_key_to_vk ascii_text "q" = Returned (Some 81%Z)
  ∧ @_key_to_vk ascii_text ("f" +:+ pretty 12) = Returned (Some 0x7B%Z).
Proof.
  pose proof (@ascii_keys_accepted ascii_text ascii_text_upper ascii_text_int)
    as [Hkeys Hfn].
  split.
  - exact (Hkeys "q"%char eq_refl).
  - exact (proj2 (Hfn 12 ltac:(lia))).
Defined.

Lemma pinned_text_survives_captures_witness :
  NoDup (text <$> two_entries) ∧ beta_entry ∈ two_entries
  ∧ ∃ x', x' ∈ @captures ascii_builtins
                  [(3%Q, "alpha"); (4%Q, "beta"); (5%Q, "Gamma")] two_entries
          ∧ text x' = "beta" ∧ pinned x' = true.
Proof.
  assert (Hin : beta_entry ∈ two_entries) by (by left).
  split; [exact two_entries_distinct|]. split; [exact Hin|].
  exact (@pinned_text_survives_captures ascii_builtins
           [(3%Q, "alpha"); (4%Q, "beta"); (5%Q, "Gamma")] two_entries
           beta_entry two_entries_distinct Hin eq_refl).
Defined.
